(** * title_interceptor.c: a shallow embedding and its properties

    The interposed [write] of [container/c/title_interceptor.c] forwards
    every call to the libc primitive found with [dlsym], and, for stdout and
    stderr, scans the bytes that were accepted for OSC 0 / OSC 2 title
    sequences, which it appends to a log file.

    The C code is embedded as functions of a small monad that threads the
    two globals of the file and a trace of the calls the code makes, and that
    stops on a read outside the buffer object (undefined behaviour in C) or
    on [exit]. *)

From Stdlib Require Import ZArith List Lia Bool.
From Stdlib Require Import Strings.Byte Strings.String Strings.Ascii.
From Stdlib Require Import Init.Decimal.
Import ListNotations.

Open Scope Z_scope.

Module TitleInterceptor.

(** ** Machine integers and characters *)

(** [size_t] is 64 bits wide: unsigned arithmetic wraps modulo [2^64]. *)
Definition SIZE_WIDTH : Z := 64.
Definition size_t (z : Z) : Z := z mod 2 ^ SIZE_WIDTH.

Definition INT_MAX : Z := 2147483647.

(** [unsigned char] value of a byte. *)
Definition uchar (b : byte) : Z := Z.of_N (Byte.to_N b).

(** Value of a byte stored in a [char] (signed, as on x86-64). *)
Definition schar (b : byte) : Z :=
  if 128 <=? uchar b then uchar b - 256 else uchar b.

Definition ESC : Z := 27.        (* 0x1b *)
Definition BEL : Z := 7.         (* 0x07 *)
Definition RBRACKET : Z := 93.   (* ']' *)
Definition DIGIT0 : Z := 48.     (* '0' *)
Definition DIGIT2 : Z := 50.     (* '2' *)
Definition SEMI : Z := 59.       (* ';' *)
Definition BACKSLASH : Z := 92.  (* '\\' *)
Definition SPACE : Z := 32.      (* ' ' *)

Definition STDOUT_FILENO : Z := 1.
Definition STDERR_FILENO : Z := 2.

(** [sizeof(log_entry)] and the cap on a title. *)
Definition LOG_ENTRY_SIZE : Z := 1024.
Definition TITLE_MAX : Z := 200.

(** [PATH_MAX] of <limits.h> on Linux, the size of the [cwd] array. *)
Definition PATH_MAX : Z := 4096.

Definition bytes (s : string) : list byte := list_byte_of_string s.

(** ** The world outside the program *)

(** The only function pointer the program ever holds. *)
Inductive fnptr := libc_write.

(** What the platform answers during one call of the shim. *)
Record World := {
  (** [getenv("CATNIP_TITLE_INTERCEPT")] *)
  sys_getenv : option (list byte);
  (** [dlsym(RTLD_NEXT, "write")] *)
  sys_dlsym : option fnptr;
  (** value returned by the libc [write] for [fd], [buf], [count] *)
  sys_write : Z -> option (list byte) -> Z -> Z;
  (** [getpid()] *)
  sys_getpid : Z;
  (** [getcwd(buffer, size)]: the path, or failure *)
  sys_getcwd : Z -> option (list byte);
  (** [readlink("/proc/self/cwd", buffer, size)]: the bytes stored, or -1 *)
  sys_readlink : Z -> option (list byte);
  (** [strftime] of the local time with "%Y-%m-%d %H:%M:%S" *)
  sys_timestamp : list byte;
  (** [open(TITLE_LOG_FILE, O_WRONLY | O_CREAT | O_APPEND, 0644)] *)
  sys_open : Z
}.

(** Calls the program makes, in order. *)
Inductive event :=
| EvDlsym
| EvStderr (msg : list byte)
| EvForward (fd : Z) (buf : option (list byte)) (count : Z)
| EvGetenv
| EvScan (count : Z)
| EvRead (off : Z)
| EvOpenLog
| EvLogWrite (log_fd : Z) (log_entry : list byte) (log_len : Z)
| EvCloseLog (log_fd : Z).

(** The globals [init_once] and [original_write], and the trace so far. *)
Record state := {
  init_once : bool;
  original_write : option fnptr;
  trace : list event
}.

(** State of a freshly loaded library: [PTHREAD_ONCE_INIT] and [NULL]. *)
Definition initial_state : state :=
  {| init_once := false; original_write := None; trace := [] |}.

(** ** The monad *)

Inductive outcome (A : Type) :=
| Ret (a : A)        (* normal completion *)
| Fault              (* undefined behaviour: out-of-bounds read, NULL call *)
| Exited (code : Z)  (* [exit(code)] *)
| OutOfFuel.         (* the model's loop budget ran out *)
Arguments Ret {A} a.
Arguments Fault {A}.
Arguments Exited {A} code.
Arguments OutOfFuel {A}.

Definition M (A : Type) : Type := state -> outcome A * state.

Definition ret {A} (a : A) : M A := fun st => (Ret a, st).

Definition bind {A B} (m : M A) (k : A -> M B) : M B :=
  fun st =>
    match m st with
    | (Ret a, st') => k a st'
    | (Fault, st') => (Fault, st')
    | (Exited c, st') => (Exited c, st')
    | (OutOfFuel, st') => (OutOfFuel, st')
    end.

Declare Scope m_scope.
Delimit Scope m_scope with m.
Notation "x <- c1 ;; c2" := (bind c1 (fun x => c2))
  (at level 100, c1 at next level, right associativity) : m_scope.
Notation "c1 ;; c2" := (bind c1 (fun _ => c2))
  (at level 100, right associativity) : m_scope.
Open Scope m_scope.

Definition add_events (evs : list event) (st : state) : state :=
  {| init_once := init_once st;
     original_write := original_write st;
     trace := trace st ++ evs |}.

Definition emit (e : event) : M unit := fun st => (Ret tt, add_events [e] st).
Definition fault {A} : M A := fun st => (Fault, st).
Definition exit {A} (code : Z) : M A := fun st => (Exited code, st).
Definition out_of_fuel {A} : M A := fun st => (OutOfFuel, st).

(** ** Symbol resolver *)

(** The text of line 27. *)
Definition resolution_failure_message : list byte :=
  bytes "title_interceptor: Failed to get original write function" ++ [x0a].


Section Program.

Variable w : World.

(** [init_original_write], lines 24-30. *)
Definition init_original_write : M unit :=
  emit EvDlsym ;;
  (fun st => (Ret tt, {| init_once := init_once st;
                         original_write := sys_dlsym w;
                         trace := trace st |})) ;;
  p <- (fun st => (Ret (original_write st), st)) ;;
  match p with
  | None =>
      emit (EvStderr resolution_failure_message) ;;
      exit 1
  | Some _ => ret tt
  end.

(** [pthread_once(&init_once, init_routine)]. *)
Definition pthread_once (init_routine : M unit) : M unit :=
  fun st =>
    if init_once st then (Ret tt, st)
    else init_routine {| init_once := true;
                         original_write := original_write st;
                         trace := trace st |}.

(** ** Working directory, lines 33-49 *)

(** The string left in [buffer] and the value returned.  The fallback of
    lines 46-47 is [strncpy] of at most [buffer_size - 1] bytes followed by
    a NUL at [buffer_size - 1]. *)
Definition get_current_working_directory (buffer_size : Z) : list byte * Z :=
  match sys_getcwd w buffer_size with
  | Some p => (p, 1)
  | None =>
      match sys_readlink w (buffer_size - 1) with
      | Some p => (p, 1)
      | None => (firstn (Z.to_nat (buffer_size - 1)) (bytes "/unknown"), 0)
      end
  end.

(** ** Scanner, lines 52-131 *)

Section Scanner.

Variable data : list byte.
Variable count : Z.
Variable pid : Z.

(** [data[off]]: a read of the object [buf] points to. *)
Definition read (off : Z) : M Z :=
  emit (EvRead off) ;;
  if off <? 0 then fault
  else match nth_error data (Z.to_nat off) with
       | Some b => ret (uchar b)
       | None => fault
       end.

(** The condition of lines 57-59, with the reads its short-circuit
    operators perform. *)
Definition marker_at (i : Z) : M bool :=
  d0 <- read i ;;
  if d0 =? ESC then
    d1 <- read (size_t (i + 1)) ;;
    if d1 =? RBRACKET then
      d2 <- read (size_t (i + 2)) ;;
      variant <- (if d2 =? DIGIT0 then ret true
                  else d2' <- read (size_t (i + 2)) ;; ret (d2' =? DIGIT2)) ;;
      if variant : bool then
        d3 <- read (size_t (i + 3)) ;;
        ret (d3 =? SEMI)
      else ret false
    else ret false
  else ret false.

(** The [while] loop of lines 66-77; its result is the final [title_end]. *)
Fixpoint find_terminator (fuel : nat) (title_end : Z) : M Z :=
  match fuel with
  | O => out_of_fuel
  | S fuel' =>
      if title_end <? count then
        c <- read title_end ;;
        if c =? BEL then ret title_end
        else if title_end <? size_t (count - 1) then
          c0 <- read title_end ;;
          if c0 =? ESC then
            c1 <- read (size_t (title_end + 1)) ;;
            if c1 =? BACKSLASH then ret title_end
            else find_terminator fuel' (size_t (title_end + 1))
          else find_terminator fuel' (size_t (title_end + 1))
        else find_terminator fuel' (size_t (title_end + 1))
      else ret title_end
  end.

(** [memcpy(title, data + title_start, title_len)]. *)
Fixpoint memcpy (src : Z) (n : nat) : M (list byte) :=
  match n with
  | O => ret []
  | S n' =>
      emit (EvRead src) ;;
      if src <? 0 then fault
      else match nth_error data (Z.to_nat src) with
           | Some b => rest <- memcpy (src + 1) n' ;; ret (b :: rest)
           | None => fault
           end
  end.

(** The validation loop of lines 93-101 over the [char] array [title]. *)
Fixpoint validate (title : list byte) : bool :=
  match title with
  | [] => true
  | c :: rest =>
      if (schar c <? 32) || (schar c >? 126) then
        if negb (schar c =? SPACE) then false else validate rest
      else validate rest
  end.

(** What [%s] prints of a [char] array: the bytes before the first NUL. *)
Fixpoint c_str (s : list byte) : list byte :=
  match s with
  | [] => []
  | c :: rest => if uchar c =? 0 then [] else c :: c_str rest
  end.

Fixpoint uint_digits (d : Decimal.uint) : list byte :=
  match d with
  | Nil => []
  | D0 d' => x30 :: uint_digits d'
  | D1 d' => x31 :: uint_digits d'
  | D2 d' => x32 :: uint_digits d'
  | D3 d' => x33 :: uint_digits d'
  | D4 d' => x34 :: uint_digits d'
  | D5 d' => x35 :: uint_digits d'
  | D6 d' => x36 :: uint_digits d'
  | D7 d' => x37 :: uint_digits d'
  | D8 d' => x38 :: uint_digits d'
  | D9 d' => x39 :: uint_digits d'
  end.

(** What [%d] prints. *)
Definition decimal (z : Z) : list byte :=
  match Z.to_int z with
  | Decimal.Pos d => uint_digits d
  | Decimal.Neg d => x2d :: uint_digits d
  end.

(** The line ["%s|%d|%s|%s\n"] of line 119. *)
Definition format_entry (timestamp : list byte) (p : Z)
    (cwd title : list byte) : list byte :=
  timestamp ++ [x7c] ++ decimal p ++ [x7c] ++ cwd ++ [x7c]
    ++ c_str title ++ [x0a].

(** The value [snprintf] returns: the length of the whole line, or a
    negative value when that exceeds [INT_MAX]. *)
Definition snprintf_result (line : list byte) : Z :=
  let n := Z.of_nat (List.length line) in
  if n <=? INT_MAX then n else -1.

(** Lines 104-126: the record writer.  The call of line 123 goes through
    [original_write]; the scanner is only entered from [write], after the
    pointer has been set and used for the forwarding, so the call is
    recorded as the event [EvLogWrite] without a second look at the
    pointer. *)
Definition log_title (title : list byte) : M unit :=
  let cwd := fst (get_current_working_directory PATH_MAX) in
  let timestamp := sys_timestamp w in
  emit EvOpenLog ;;
  let log_fd := sys_open w in
  if log_fd >=? 0 then
    let line := format_entry timestamp pid cwd title in
    let log_len := snprintf_result line in
    (if (log_len >? 0) && (log_len <? LOG_ENTRY_SIZE)
     then emit (EvLogWrite log_fd line log_len)
     else ret tt) ;;
    emit (EvCloseLog log_fd)
  else ret tt.

(** Lines 61-128: the body run once the four marker bytes matched at [i]. *)
Definition handle_candidate (i : Z) : M unit :=
  let title_start := size_t (i + 4) in
  title_end <- find_terminator (S (Z.to_nat (count - title_start))) title_start ;;
  if (title_end <? count) && (title_end >? title_start) then
    let title_len := title_end - title_start in
    let title_len := if title_len >? TITLE_MAX then TITLE_MAX else title_len in
    title <- memcpy title_start (Z.to_nat title_len) ;;
    let valid := validate title in
    if valid && (title_len >? 0) then log_title title else ret tt
  else ret tt.

(** One iteration of the [for] loop of line 56. *)
Definition scan_body (i : Z) : M unit :=
  found <- marker_at i ;;
  if found : bool then handle_candidate i else ret tt.

(** The [for] loop of line 56, from index [i]. *)
Fixpoint scan_loop (fuel : nat) (i : Z) : M unit :=
  match fuel with
  | O => out_of_fuel
  | S fuel' =>
      if i <? size_t (count - 4) then
        scan_body i ;;
        scan_loop fuel' (size_t (i + 1))
      else ret tt
  end.

(** Every iteration starts with a read of [data[i]], so the loop runs at
    most once more than the object has bytes. *)
Definition scan_for_title_sequences : M unit :=
  emit (EvScan count) ;;
  scan_loop (S (List.length data)) 0.

End Scanner.

(** ** The shim, lines 134-157 *)

Definition call_original_write (fd : Z) (buf : option (list byte)) (count : Z)
    : M Z :=
  p <- (fun st => (Ret (original_write st), st)) ;;
  match p with
  | None => fault
  | Some libc_write =>
      emit (EvForward fd buf count) ;;
      ret (sys_write w fd buf count)
  end.

Definition getenv_toggle : M (option (list byte)) :=
  emit EvGetenv ;;
  ret (sys_getenv w).

(** [enabled && strcmp(enabled, "1") == 0] *)
Definition is_enabled (enabled : option (list byte)) : bool :=
  match enabled with
  | Some [c] => uchar c =? 49
  | _ => false
  end.

Definition write (fd : Z) (buf : option (list byte)) (count : Z) : M Z :=
  pthread_once init_original_write ;;
  result <- call_original_write fd buf count ;;
  (match buf with
   | Some data =>
       if ((fd =? STDOUT_FILENO) || (fd =? STDERR_FILENO))
            && (count >? 0) && (result >? 0)
       then
         enabled <- getenv_toggle ;;
         if is_enabled enabled then
           let pid := sys_getpid w in
           scan_for_title_sequences data (size_t result) pid
         else ret tt
       else ret tt
   | None => ret tt
   end) ;;
  ret result.

(** The load-time constructor, lines 160-170. *)
Definition init_title_interceptor : M unit :=
  enabled <- getenv_toggle ;;
  if negb (is_enabled enabled) then ret tt
  else pthread_once init_original_write.

End Program.

(** ** Observations on a trace *)

(** The lines handed to the original primitive for the log file. *)
Fixpoint appended (tr : list event) : list (list byte) :=
  match tr with
  | [] => []
  | EvLogWrite _ line len :: tr' => firstn (Z.to_nat len) line :: appended tr'
  | _ :: tr' => appended tr'
  end.

(** The buffer offsets the scanner read. *)
Fixpoint reads (tr : list event) : list Z :=
  match tr with
  | [] => []
  | EvRead off :: tr' => off :: reads tr'
  | _ :: tr' => reads tr'
  end.

Definition scanned (tr : list event) : bool :=
  existsb (fun e => match e with EvScan _ => true | _ => false end) tr.

(** The events of [evs] other than buffer reads. *)
Definition calls (tr : list event) : list event :=
  filter (fun e => match e with EvRead _ => false | _ => true end) tr.

(** The events a computation adds to the trace of [st]. *)
Definition new_events {A} (m : M A) (st : state) : list event :=
  skipn (List.length (trace st)) (trace (snd (m st))).

(** ** A functional view of the scanner

    The same loops as pure functions of the buffer, without the trace: what
    the scanner computes when none of its reads leaves the object. *)

Section View.

Variable data : list byte.
Variable count : Z.

(** [data[k]] as an [unsigned char]. *)
Definition get (k : Z) : Z := uchar (nth (Z.to_nat k) data x00).

(** Lines 57-59. *)
Definition is_marker (i : Z) : bool :=
  (get i =? ESC) && (get (i + 1) =? RBRACKET)
  && ((get (i + 2) =? DIGIT0) || (get (i + 2) =? DIGIT2))
  && (get (i + 3) =? SEMI).

(** The two [break] conditions of lines 67-75. *)
Definition terminator_at (k : Z) : bool :=
  (get k =? BEL)
  || ((k <? count - 1) && (get k =? ESC) && (get (k + 1) =? BACKSLASH)).

Fixpoint first_terminator (fuel : nat) (k : Z) : Z :=
  match fuel with
  | O => k
  | S fuel' =>
      if (k <? count) && negb (terminator_at k)
      then first_terminator fuel' (k + 1)
      else k
  end.

(** The bytes from [title_start] up to [title_end], cut at [TITLE_MAX]. *)
Definition retained (title_start title_end : Z) : list byte :=
  firstn (Z.to_nat (Z.min (title_end - title_start) TITLE_MAX))
         (skipn (Z.to_nat title_start) data).

(** The title lines 61-103 hand to the record writer, if any. *)
Definition candidate_title (i : Z) : option (list byte) :=
  let title_start := i + 4 in
  let title_end :=
    first_terminator (Z.to_nat (count - title_start)) title_start in
  if (title_end <? count) && (title_end >? title_start) then
    let title := retained title_start title_end in
    if validate title then Some title else None
  else None.

Definition titles_at (i : Z) : list (list byte) :=
  if is_marker i then
    match candidate_title i with Some t => [t] | None => [] end
  else [].

(** The offsets [lo], [lo+1], ... ([n] of them). *)
Fixpoint offsets (lo : Z) (n : nat) : list Z :=
  match n with
  | O => []
  | S n' => lo :: offsets (lo + 1) n'
  end.

Definition scan_titles : list (list byte) :=
  flat_map titles_at (offsets 0 (Z.to_nat (count - 4))).

End View.

(** The events of one run of the record writer. *)
Definition log_events (w : World) (pid : Z) (title : list byte) : list event :=
  EvOpenLog ::
  (if sys_open w >=? 0 then
     let line := format_entry (sys_timestamp w) pid
                   (fst (get_current_working_directory w PATH_MAX)) title in
     (if (snprintf_result line >? 0) && (snprintf_result line <? LOG_ENTRY_SIZE)
      then [EvLogWrite (sys_open w) line (snprintf_result line)] else [])
     ++ [EvCloseLog (sys_open w)]
   else []).

(** A computation that only adds events, and ends by returning or by a
    fault: it neither exits nor exhausts the loop budget. *)
Definition tame {A} (m : M A) : Prop :=
  forall st, exists evs,
    snd (m st) = add_events evs st
    /\ match fst (m st) with Ret _ | Fault => True | _ => False end.

(** The one-time resolution has succeeded, or will on this call. *)
Definition resolvable (w : World) (st : state) : Prop :=
  if init_once st then original_write st = Some libc_write
  else sys_dlsym w = Some libc_write.

(** The globals once [init_original_write] has run and found the symbol. *)
Definition resolved (st : state) : state :=
  {| init_once := true; original_write := Some libc_write; trace := trace st |}.

Definition resolution_events (st : state) : list event :=
  if init_once st then [] else [EvDlsym].

(** The condition of lines 142-143 on a call and on what the original
    returned for it. *)
Definition triggers (w : World) (fd : Z) (buf : option (list byte)) (count : Z)
    : bool :=
  match buf with
  | Some _ =>
      ((fd =? STDOUT_FILENO) || (fd =? STDERR_FILENO))
      && (count >? 0) && (sys_write w fd buf count >? 0)
  | None => false
  end.

(** Printable ASCII, 32 to 126. *)
Definition printable (b : byte) : Prop := 32 <= uchar b <= 126.

(** ** Sample inputs *)

(** A world in which everything works: the toggle and the number of bytes
    the original accepts are left open. *)
Definition demo_world (toggle : option (list byte)) (accepted : Z) : World :=
  {| sys_getenv := toggle;
     sys_dlsym := Some libc_write;
     sys_write := fun _ _ _ => accepted;
     sys_getpid := 4242;
     sys_getcwd := fun _ => Some (bytes "/workspace");
     sys_readlink := fun _ => None;
     sys_timestamp := bytes "2024-01-01 10:00:00";
     sys_open := 3 |}.

(** [ESC ] 0 ;] and [ESC ] 2 ;] *)
Definition OSC0 : list byte := [x1b; x5d; x30; x3b].
Definition OSC2 : list byte := [x1b; x5d; x32; x3b].

(** [ESC ] 0 ; hello BEL] *)
Definition hello_buffer : list byte := OSC0 ++ bytes "hello" ++ [x07].

(** [e] is where the terminator search started at [s] stops: the first
    offset below [count] at which a terminator begins. *)
Definition terminated_at (data : list byte) (count s e : Z) : Prop :=
  s <= e < count
  /\ terminator_at data count e = true
  /\ forall k, s <= k < e -> terminator_at data count k = false.

(** No terminator begins between [s] and the end of the scanned bytes. *)
Definition unterminated (data : list byte) (count s : Z) : Prop :=
  forall k, s <= k < count -> terminator_at data count k = false.

(** The bytes strictly between the marker and the terminator. *)
Definition payload (data : list byte) (s e : Z) : list byte :=
  firstn (Z.to_nat (e - s)) (skipn (Z.to_nat s) data).

Definition toggle_on : option (list byte) := Some (bytes "1").

(** One hundred bytes without any escape sequence. *)
Definition plain_buffer : list byte := repeat x61 100.

(** [ESC ] 0 ;], a payload of 300 letters, [BEL]. *)
Definition long_buffer : list byte := OSC0 ++ repeat x61 300 ++ [x07].

(** [ESC ] 0 ;], 200 letters, then [ESC ] 2 ; b], one [BEL] for both. *)
Definition nested_buffer : list byte :=
  OSC0 ++ repeat x61 200 ++ OSC2 ++ bytes "b" ++ [x07].

(** [ESC ] 0 ;], 200 letters, the byte 0x01, 20 more letters, [BEL]. *)
Definition tail_buffer : list byte :=
  OSC0 ++ repeat x61 200 ++ [x01] ++ repeat x62 20 ++ [x07].

(** [ESC ] 0 ; h e 0x01 l l o BEL] *)
Definition control_buffer : list byte :=
  OSC0 ++ bytes "he" ++ [x01] ++ bytes "llo" ++ [x07].

(** A world whose working directory is 1100 bytes long. *)
Definition deep_world : World :=
  {| sys_getenv := toggle_on;
     sys_dlsym := Some libc_write;
     sys_write := fun _ _ _ => 10;
     sys_getpid := 4242;
     sys_getcwd := fun _ => Some (x2f :: repeat x64 1099);
     sys_readlink := fun _ => None;
     sys_timestamp := bytes "2024-01-01 10:00:00";
     sys_open := 3 |}.

(** A world in which [dlsym] does not find the symbol. *)
Definition unlinked_world : World :=
  {| sys_getenv := toggle_on;
     sys_dlsym := None;
     sys_write := fun _ _ _ => 10;
     sys_getpid := 4242;
     sys_getcwd := fun _ => Some (bytes "/workspace");
     sys_readlink := fun _ => None;
     sys_timestamp := bytes "2024-01-01 10:00:00";
     sys_open := 3 |}.

(** The events of the scanner and of the record writer. *)
Definition scanner_event (e : event) : Prop :=
  match e with
  | EvScan _ | EvRead _ | EvOpenLog | EvLogWrite _ _ _ | EvCloseLog _ => True
  | _ => False
  end.

(** A computation whose outcome and events do not depend on the state it
    starts from, and whose events all satisfy [P]. *)
Definition uniform {A} (P : event -> Prop) (m : M A) : Prop :=
  exists o evs, Forall P evs /\ forall st, m st = (o, add_events evs st).

(** What follows the forwarding in a call: the environment lookup and the
    scan. *)
Definition after_forward (e : event) : Prop := e = EvGetenv \/ scanner_event e.

(** A title as the record writer may receive it. *)
Definition valid_title (t : list byte) : Prop :=
  t <> [] /\ (List.length t <= 200)%nat /\ Forall printable t.

Definition is_dlsym (e : event) : bool :=
  match e with EvDlsym => true | _ => false end.

Definition is_forward (e : event) : bool :=
  match e with EvForward _ _ _ => true | _ => false end.

(** The two terminators: BEL, and ESC followed by a backslash. *)
Inductive terminator := TermBEL | TermST.

(** A piece of output: bytes without meaning for the scanner, or a title
    sequence with its digit, payload and terminator. *)
Inductive item :=
| Plain (bs : list byte)
| Title (digit : byte) (p : list byte) (t : terminator).

Definition render_terminator (t : terminator) : list byte :=
  match t with
  | TermBEL => [x07]
  | TermST => [x1b; x5c]
  end.

Definition render_item (it : item) : list byte :=
  match it with
  | Plain bs => bs
  | Title d p t => [x1b; x5d; d; x3b] ++ p ++ render_terminator t
  end.

Definition render (items : list item) : list byte := flat_map render_item items.

(** The titles a buffer made of [items] should give. *)
Definition expected_titles (items : list item) : list (list byte) :=
  flat_map (fun it => match it with
                      | Plain _ => []
                      | Title _ p _ => [firstn 200 p]
                      end) items.

(** Plain bytes hold no ESC; a title has digit 0 or 2 and a non-empty
    printable payload. *)
Definition well_formed_item (it : item) : Prop :=
  match it with
  | Plain bs => Forall (fun b => uchar b <> ESC) bs
  | Title d p _ => (d = x30 \/ d = x32) /\ p <> [] /\ Forall printable p
  end.

(** ** Basic facts *)

Lemma size_t_small z : 0 <= z < 2 ^ 64 -> size_t z = z.
Proof. intros H. unfold size_t, SIZE_WIDTH. now apply Z.mod_small. Qed.

Lemma size_t_range z : 0 <= size_t z < 2 ^ 64.
Proof. unfold size_t, SIZE_WIDTH. apply Z.mod_pos_bound. lia. Qed.

Lemma uchar_range b : 0 <= uchar b <= 255.
Proof.
  unfold uchar. pose proof (Byte.to_N_bounded b). lia.
Qed.

Lemma add_events_nil st : add_events [] st = st.
Proof. destruct st; unfold add_events; simpl. now rewrite app_nil_r. Qed.

Lemma add_events_app e1 e2 st :
  add_events e2 (add_events e1 st) = add_events (e1 ++ e2) st.
Proof. unfold add_events; simpl. now rewrite app_assoc. Qed.

Lemma trace_add_events evs st : trace (add_events evs st) = trace st ++ evs.
Proof. reflexivity. Qed.

Lemma bind_Ret {A B} (m : M A) (k : A -> M B) st a st' :
  m st = (Ret a, st') -> bind m k st = k a st'.
Proof. intros H. unfold bind. now rewrite H. Qed.

Lemma new_events_add {A} (m : M A) st (o : outcome A) evs :
  m st = (o, add_events evs st) -> new_events m st = evs.
Proof.
  intros H. unfold new_events. rewrite H. simpl.
  rewrite skipn_app, skipn_all, Nat.sub_diag. reflexivity.
Qed.

Lemma reads_app t1 t2 : reads (t1 ++ t2) = reads t1 ++ reads t2.
Proof.
  induction t1 as [|e t1 IH]; simpl; [reflexivity|].
  destruct e; simpl; now rewrite IH.
Qed.

Lemma reads_map_EvRead offs : reads (map EvRead offs) = offs.
Proof. induction offs; simpl; congruence. Qed.

Lemma appended_app t1 t2 : appended (t1 ++ t2) = appended t1 ++ appended t2.
Proof.
  induction t1 as [|e t1 IH]; simpl; [reflexivity|].
  destruct e; simpl; now rewrite IH.
Qed.

Lemma appended_map_EvRead offs : appended (map EvRead offs) = [].
Proof. induction offs; simpl; congruence. Qed.

Lemma calls_app t1 t2 : calls (t1 ++ t2) = calls t1 ++ calls t2.
Proof. unfold calls. apply filter_app. Qed.

Lemma calls_map_EvRead offs : calls (map EvRead offs) = [].
Proof. induction offs; simpl; auto. Qed.

Lemma reads_log_events w pid t : reads (log_events w pid t) = [].
Proof.
  unfold log_events. simpl.
  destruct (sys_open w >=? 0); [|reflexivity].
  destruct (_ && _); reflexivity.
Qed.

Lemma calls_log_events w pid t : calls (log_events w pid t) = log_events w pid t.
Proof.
  unfold log_events. simpl.
  destruct (sys_open w >=? 0); [|reflexivity].
  destruct (_ && _); reflexivity.
Qed.

(** ** The record writer *)

Lemma log_title_events w pid title st :
  log_title w pid title st = (Ret tt, add_events (log_events w pid title) st).
Proof.
  unfold log_title, log_events, bind, emit, ret.
  destruct (sys_open w >=? 0).
  - destruct (_ && _); rewrite !add_events_app; reflexivity.
  - reflexivity.
Qed.

(** ** The scanner on a buffer it stays inside of *)

Section ScannerFacts.

Variable w : World.
Variable data : list byte.
Variable count : Z.
Variable pid : Z.

Lemma read_in off st :
  0 <= off < Z.of_nat (List.length data) ->
  read data off st = (Ret (get data off), add_events [EvRead off] st).
Proof.
  intros H. unfold read, bind, emit, get.
  destruct (off <? 0) eqn:E; [lia|].
  rewrite (nth_error_nth' data x00) by lia. reflexivity.
Qed.

Lemma bind_read {B} off (k : Z -> M B) st :
  0 <= off < Z.of_nat (List.length data) ->
  bind (read data off) k st = k (get data off) (add_events [EvRead off] st).
Proof. intros H. apply bind_Ret. now apply read_in. Qed.

Lemma marker_at_spec i st :
  0 <= i -> i + 3 < Z.of_nat (List.length data) -> i + 3 < 2 ^ 64 ->
  exists offs,
    marker_at data i st = (Ret (is_marker data i), add_events (map EvRead offs) st)
    /\ Forall (fun o => i <= o <= i + 3) offs.
Proof.
  intros Hi Hlen Hmax. unfold marker_at, is_marker.
  rewrite bind_read by lia.
  destruct (get data i =? ESC); simpl.
  2:{ exists [i]. split; [reflexivity|]. repeat constructor; lia. }
  rewrite !size_t_small by lia.
  rewrite bind_read by lia.
  destruct (get data (i + 1) =? RBRACKET); simpl.
  2:{ exists [i; i + 1]. rewrite add_events_app. split; [reflexivity|].
      repeat constructor; lia. }
  rewrite bind_read by lia.
  destruct (get data (i + 2) =? DIGIT0) eqn:E0; simpl.
  - unfold bind at 1. unfold ret at 1. rewrite bind_read by lia.
    exists [i; i + 1; i + 2; i + 3]. rewrite !add_events_app. split; [reflexivity|].
    repeat constructor; lia.
  - unfold bind at 1. rewrite bind_read by lia. unfold ret at 1.
    destruct (get data (i + 2) =? DIGIT2); simpl.
    + rewrite bind_read by lia.
      exists [i; i + 1; i + 2; i + 2; i + 3]. rewrite !add_events_app. split; [reflexivity|].
      repeat constructor; lia.
    + exists [i; i + 1; i + 2; i + 2]. rewrite !add_events_app. split; [reflexivity|].
      repeat constructor; lia.
Qed.


Hypothesis count_le : count <= Z.of_nat (List.length data).
Hypothesis count_max : count < 2 ^ 64.

Lemma find_terminator_S fuel k :
  find_terminator data count (S fuel) k =
  if k <? count then
    c <- read data k ;;
    if c =? BEL then ret k
    else if k <? size_t (count - 1) then
      c0 <- read data k ;;
      if c0 =? ESC then
        c1 <- read data (size_t (k + 1)) ;;
        if c1 =? BACKSLASH then ret k
        else find_terminator data count fuel (size_t (k + 1))
      else find_terminator data count fuel (size_t (k + 1))
    else find_terminator data count fuel (size_t (k + 1))
  else ret k.
Proof. reflexivity. Qed.

Lemma find_terminator_spec fuel : forall k st,
  0 <= k <= count -> (Z.to_nat (count - k) <= fuel)%nat ->
  exists offs,
    find_terminator data count (S fuel) k st
      = (Ret (first_terminator data count fuel k), add_events (map EvRead offs) st)
    /\ Forall (fun o => k <= o < count) offs.
Proof.
  induction fuel as [|fuel IH]; intros k st Hk Hfuel.
  - assert (k = count) by lia. subst k. simpl.
    rewrite Z.ltb_irrefl. exists []. simpl. rewrite add_events_nil.
    split; [reflexivity | constructor].
  - rewrite find_terminator_S. cbn [first_terminator].
    destruct (k <? count) eqn:Ek.
    2:{ exists []. simpl. rewrite add_events_nil. split; [reflexivity | constructor]. }
    apply Z.ltb_lt in Ek.
    assert (Hnext : forall st', exists offs,
      find_terminator data count (S fuel) (k + 1) st'
        = (Ret (first_terminator data count fuel (k + 1)), add_events (map EvRead offs) st')
      /\ Forall (fun o => k <= o < count) offs).
    { intros st'.
      destruct (IH (k + 1) st') as [offs [E F]]; [lia | lia |].
      exists offs. split; [exact E|].
      eapply Forall_impl; [|exact F]. simpl. intros; lia. }
    rewrite (size_t_small (k + 1)) by lia.
    rewrite (size_t_small (count - 1)) by lia.
    rewrite bind_read by lia.
    unfold terminator_at.
    destruct (get data k =? BEL) eqn:Ebel; cbn [orb andb negb].
    { exists [k]. split; [reflexivity|]. repeat constructor; lia. }
    destruct (k <? count - 1) eqn:Ek1; cbn [orb andb negb].
    2:{ destruct (Hnext (add_events [EvRead k] st)) as [offs [E F]].
        exists (k :: offs). rewrite E, add_events_app. split; [reflexivity|].
        constructor; [lia | exact F]. }
    apply Z.ltb_lt in Ek1.
    rewrite bind_read by lia.
    destruct (get data k =? ESC) eqn:Eesc; cbn [orb andb negb].
    2:{ destruct (Hnext (add_events [EvRead k] (add_events [EvRead k] st))) as [offs [E F]].
        exists (k :: k :: offs). rewrite E, !add_events_app. split; [reflexivity|].
        repeat (constructor; [lia|]). exact F. }
    rewrite bind_read by lia.
    destruct (get data (k + 1) =? BACKSLASH) eqn:Ebs; cbn [orb andb negb].
    { exists [k; k; k + 1]. rewrite !add_events_app. split; [reflexivity|].
      repeat constructor; lia. }
    destruct (Hnext (add_events [EvRead (k + 1)] (add_events [EvRead k] (add_events [EvRead k] st)))) as [offs [E F]].
    exists (k :: k :: k + 1 :: offs). rewrite E, !add_events_app. split; [reflexivity|].
    repeat (constructor; [lia|]). exact F.
Qed.

Lemma first_terminator_char fuel : forall k,
  0 <= k <= count -> (Z.to_nat (count - k) <= fuel)%nat ->
  let e := first_terminator data count fuel k in
  k <= e <= count
  /\ (forall j, k <= j < e -> terminator_at data count j = false)
  /\ (e < count -> terminator_at data count e = true).
Proof.
  induction fuel as [|fuel IH]; intros k Hk Hfuel; cbn [first_terminator].
  - assert (k = count) by lia. subst. repeat split; intros; lia.
  - destruct (k <? count) eqn:Ek; simpl.
    + apply Z.ltb_lt in Ek.
      destruct (terminator_at data count k) eqn:Et; simpl.
      * repeat split; intros; try lia. exact Et.
      * destruct (IH (k + 1)) as [H1 [H2 H3]]; [lia | lia |].
        repeat split; try lia.
        -- intros j Hj. destruct (Z.eq_dec j k); [subst; exact Et|]. apply H2. lia.
        -- exact H3.
    + apply Z.ltb_ge in Ek. repeat split; intros; lia.
Qed.

Lemma memcpy_spec n : forall src st,
  0 <= src -> src + Z.of_nat n <= Z.of_nat (List.length data) ->
  memcpy data src n st
    = (Ret (firstn n (skipn (Z.to_nat src) data)),
       add_events (map EvRead (offsets src n)) st).
Proof.
  induction n as [|n IH]; intros src st Hsrc Hlen.
  - simpl. rewrite add_events_nil. reflexivity.
  - cbn [memcpy offsets]. unfold bind at 1, emit at 1.
    destruct (src <? 0) eqn:E; [lia|].
    rewrite (nth_error_nth' data x00) by lia.
    rewrite (bind_Ret _ _ _ _ _ (IH (src + 1) _ ltac:(lia) ltac:(lia))).
    unfold ret. rewrite add_events_app. simpl.
    f_equal. f_equal.
    replace (Z.to_nat (src + 1)) with (S (Z.to_nat src)) by lia.
    assert (Hl : (Z.to_nat src < List.length data)%nat) by lia.
    revert Hl. generalize (Z.to_nat src). clear.
    intros m; revert data. induction m as [|m IHm]; intros [|b l] Hl; simpl in *; try lia.
    + reflexivity.
    + destruct l as [|b' l']; simpl in *; [lia|].
      specialize (IHm (b' :: l') ltac:(simpl; lia)). simpl in IHm. exact IHm.
Qed.


Lemma offsets_bounded n : forall lo hi,
  0 <= lo -> lo + Z.of_nat n <= hi ->
  Forall (fun o => 0 <= o < hi) (offsets lo n).
Proof.
  induction n as [|n IH]; intros lo hi Hlo Hhi; simpl.
  - constructor.
  - constructor; [lia|]. apply IH; lia.
Qed.

Lemma handle_candidate_spec i st :
  0 <= i -> i + 4 <= count ->
  exists offs,
    handle_candidate w data count pid i st
      = (Ret tt,
         add_events (map EvRead offs ++
                     match candidate_title data count i with
                     | Some t => log_events w pid t
                     | None => []
                     end) st)
    /\ Forall (fun o => 0 <= o < count) offs.
Proof.
  intros Hi Hc. unfold handle_candidate, candidate_title.
  rewrite (size_t_small (i + 4)) by lia.
  destruct (find_terminator_spec (Z.to_nat (count - (i + 4))) (i + 4) st)
    as [offs [E F]]; [lia | lia |].
  rewrite (bind_Ret _ _ _ _ _ E).
  pose proof (first_terminator_char (Z.to_nat (count - (i + 4))) (i + 4)
                ltac:(lia) ltac:(lia)) as [Hr _].
  set (e := first_terminator data count (Z.to_nat (count - (i + 4))) (i + 4)) in *.
  assert (F' : Forall (fun o => 0 <= o < count) offs).
  { eapply Forall_impl; [|exact F]. simpl; intros; lia. }
  destruct ((e <? count) && (e >? i + 4)) eqn:Etest.
  2:{ exists offs. rewrite app_nil_r. split; [reflexivity | exact F']. }
  apply andb_true_iff in Etest. destruct Etest as [E1 E2].
  apply Z.ltb_lt in E1. apply Z.gtb_lt in E2.
  assert (Hlen : (if e - (i + 4) >? TITLE_MAX then TITLE_MAX else e - (i + 4))
                 = Z.min (e - (i + 4)) TITLE_MAX).
  { unfold TITLE_MAX. destruct (e - (i + 4) >? 200) eqn:G.
    - apply Z.gtb_lt in G. lia.
    - rewrite Z.gtb_ltb in G. apply Z.ltb_ge in G. lia. }
  rewrite Hlen.
  assert (Hpos : 0 < Z.min (e - (i + 4)) TITLE_MAX) by (unfold TITLE_MAX; lia).
  rewrite (bind_Ret _ _ _ _ _
            (memcpy_spec (Z.to_nat (Z.min (e - (i + 4)) TITLE_MAX)) (i + 4) _
               ltac:(lia) ltac:(unfold TITLE_MAX in *; lia))).
  fold (retained data (i + 4) e).
  replace (Z.min (e - (i + 4)) TITLE_MAX >? 0) with true
    by (symmetry; apply Z.gtb_lt; lia).
  rewrite andb_true_r.
  assert (Fo : Forall (fun o => 0 <= o < count)
                 (offsets (i + 4) (Z.to_nat (Z.min (e - (i + 4)) TITLE_MAX)))).
  { apply offsets_bounded; lia. }
  destruct (validate (retained data (i + 4) e)).
  - rewrite log_title_events, !add_events_app, app_assoc, <- map_app.
    eexists. split; [reflexivity|].
    apply Forall_app. split; [exact F' | exact Fo].
  - exists (offs ++ offsets (i + 4) (Z.to_nat (Z.min (e - (i + 4)) TITLE_MAX))).
    unfold ret. rewrite !add_events_app, map_app, app_nil_r.
    split; [reflexivity|].
    apply Forall_app. split; [exact F' | exact Fo].
Qed.


Lemma scan_body_spec i st :
  0 <= i -> i + 4 < count ->
  exists offs,
    scan_body w data count pid i st
      = (Ret tt,
         add_events (map EvRead offs
                     ++ flat_map (log_events w pid) (titles_at data count i)) st)
    /\ Forall (fun o => 0 <= o < count) offs.
Proof.
  intros Hi Hc. unfold scan_body, titles_at.
  destruct (marker_at_spec i st) as [offs [E F]]; [lia | lia | lia |].
  rewrite (bind_Ret _ _ _ _ _ E).
  assert (F' : Forall (fun o => 0 <= o < count) offs).
  { eapply Forall_impl; [|exact F]. simpl; intros; lia. }
  destruct (is_marker data i).
  - destruct (handle_candidate_spec i (add_events (map EvRead offs) st))
      as [offs' [E' G]]; [lia | lia |].
    rewrite E', add_events_app, app_assoc, <- map_app.
    exists (offs ++ offs'). split.
    + destruct (candidate_title data count i); simpl; rewrite ?app_nil_r; reflexivity.
    + apply Forall_app. split; assumption.
  - exists offs. simpl. rewrite app_nil_r. split; [reflexivity | exact F'].
Qed.

Lemma scan_loop_S fuel i :
  scan_loop w data count pid (S fuel) i =
  if i <? size_t (count - 4) then
    scan_body w data count pid i ;;
    scan_loop w data count pid fuel (size_t (i + 1))
  else ret tt.
Proof. reflexivity. Qed.

Lemma scan_loop_spec n : forall fuel i st,
  4 <= count -> 0 <= i -> i + Z.of_nat n = count - 4 -> (n < fuel)%nat ->
  exists evs,
    scan_loop w data count pid fuel i st = (Ret tt, add_events evs st)
    /\ Forall (fun o => 0 <= o < count) (reads evs)
    /\ calls evs
       = flat_map (log_events w pid)
           (flat_map (titles_at data count) (offsets i n)).
Proof.
  induction n as [|n IH]; intros fuel i st H4 Hi Hn Hfuel;
    (destruct fuel as [|fuel]; [lia|]); rewrite scan_loop_S;
    rewrite (size_t_small (count - 4)) by lia.
  - replace (i <? count - 4) with false by (symmetry; apply Z.ltb_ge; lia).
    exists []. rewrite add_events_nil. simpl. repeat split. constructor.
  - replace (i <? count - 4) with true by (symmetry; apply Z.ltb_lt; lia).
    destruct (scan_body_spec i st) as [offs [E F]]; [lia | lia |].
    rewrite (bind_Ret _ _ _ _ _ E).
    rewrite (size_t_small (i + 1)) by lia.
    destruct (IH fuel (i + 1)
                (add_events (map EvRead offs ++
                   flat_map (log_events w pid) (titles_at data count i)) st))
      as [evs [E' [R C]]]; [lia | lia | lia | lia |].
    rewrite E', add_events_app.
    eexists. split; [reflexivity|]. split.
    + rewrite !reads_app, reads_map_EvRead.
      replace (reads (flat_map (log_events w pid) (titles_at data count i)))
        with (@nil Z).
      * rewrite app_nil_r. apply Forall_app; split; assumption.
      * unfold titles_at. destruct (is_marker data i); [|reflexivity].
        destruct (candidate_title data count i); [|reflexivity].
        cbn [flat_map]. now rewrite app_nil_r, reads_log_events.
    + rewrite !calls_app, calls_map_EvRead, C. cbn [offsets flat_map app].
      rewrite flat_map_app. f_equal.
      unfold titles_at. destruct (is_marker data i); [|reflexivity].
      destruct (candidate_title data count i); [|reflexivity].
      cbn [flat_map]. now rewrite !app_nil_r, calls_log_events.
Qed.

(** The scanner on a call whose [count] bytes lie inside the object: it
    returns, reads below [count] only, and runs the record writer on the
    titles of [scan_titles], in order. *)
Lemma scan_for_title_sequences_spec st :
  4 <= count ->
  exists evs,
    scan_for_title_sequences w data count pid st
      = (Ret tt, add_events (EvScan count :: evs) st)
    /\ Forall (fun o => 0 <= o < count) (reads evs)
    /\ calls evs = flat_map (log_events w pid) (scan_titles data count).
Proof.
  intros H4. unfold scan_for_title_sequences, bind at 1, emit.
  destruct (scan_loop_spec (Z.to_nat (count - 4)) (S (List.length data)) 0
              (add_events [EvScan count] st))
    as [evs [E [R C]]]; [lia | lia | lia | lia |].
  rewrite E, add_events_app. exists evs. repeat split; assumption.
Qed.

End ScannerFacts.


(** ** Termination of the scanner: it returns or faults *)

Lemma tame_ret {A} (a : A) : tame (ret a).
Proof. intros st. exists []. rewrite add_events_nil. simpl. auto. Qed.

Lemma tame_fault {A} : tame (@fault A).
Proof. intros st. exists []. rewrite add_events_nil. simpl. auto. Qed.

Lemma tame_emit e : tame (emit e).
Proof. intros st. exists [e]. simpl. auto. Qed.

Lemma tame_bind {A B} (m : M A) (k : A -> M B) :
  tame m -> (forall a, tame (k a)) -> tame (bind m k).
Proof.
  intros Hm Hk st. unfold bind.
  destruct (Hm st) as [evs [E O]].
  destruct (m st) as [[a| | |] st']; simpl in *; subst; try contradiction.
  - destruct (Hk a (add_events evs st)) as [evs' [E' O']].
    exists (evs ++ evs'). rewrite E', add_events_app. auto.
  - exists evs. auto.
Qed.

Lemma tame_if {A} (b : bool) (m1 m2 : M A) :
  tame m1 -> tame m2 -> tame (if b then m1 else m2).
Proof. destruct b; auto. Qed.

Section Tame.

Variable w : World.
Variable data : list byte.
Variable count : Z.
Variable pid : Z.

Lemma tame_read off : tame (read data off).
Proof.
  unfold read. apply tame_bind; [apply tame_emit|]. intros _.
  destruct (off <? 0); [apply tame_fault|].
  destruct (nth_error data (Z.to_nat off)); [apply tame_ret | apply tame_fault].
Qed.

Lemma tame_marker_at i : tame (marker_at data i).
Proof.
  unfold marker_at.
  repeat first [ apply tame_read | apply tame_ret | apply tame_if
               | apply tame_bind; [|intros ?] ].
Qed.

Lemma tame_memcpy n : forall src, tame (memcpy data src n).
Proof.
  induction n as [|n IH]; intros src; cbn [memcpy].
  - apply tame_ret.
  - apply tame_bind; [apply tame_emit|]. intros _.
    destruct (src <? 0); [apply tame_fault|].
    destruct (nth_error data (Z.to_nat src)); [|apply tame_fault].
    apply tame_bind; [apply IH|]. intros ?. apply tame_ret.
Qed.

Lemma tame_log_title title : tame (log_title w pid title).
Proof.
  intros st. rewrite log_title_events. eexists. simpl. eauto.
Qed.

Hypothesis count_range : 0 <= count < 2 ^ 64.

Lemma tame_find_terminator fuel : forall k,
  0 <= k -> (Z.to_nat (count - k) < fuel)%nat ->
  tame (find_terminator data count fuel k).
Proof.
  induction fuel as [|fuel IH]; intros k Hk Hf; [lia|].
  rewrite find_terminator_S.
  destruct (k <? count) eqn:E; [|apply tame_ret].
  apply Z.ltb_lt in E.
  rewrite (size_t_small (k + 1)) by lia.
  assert (Hn : tame (find_terminator data count fuel (k + 1))).
  { apply IH; lia. }
  repeat first [ apply tame_read | apply tame_ret | exact Hn | apply tame_if
               | apply tame_bind; [|intros ?] ].
Qed.

Lemma tame_handle_candidate i : tame (handle_candidate w data count pid i).
Proof.
  unfold handle_candidate.
  apply tame_bind.
  - apply tame_find_terminator; [apply size_t_range | lia].
  - intros e. apply tame_if; [|apply tame_ret].
    apply tame_bind; [apply tame_memcpy|]. intros t.
    apply tame_if; [apply tame_log_title | apply tame_ret].
Qed.

Lemma tame_scan_body i : tame (scan_body w data count pid i).
Proof.
  unfold scan_body. apply tame_bind; [apply tame_marker_at|].
  intros b. apply tame_if; [apply tame_handle_candidate | apply tame_ret].
Qed.

Lemma read_out off st :
  Z.of_nat (List.length data) <= off ->
  read data off st = (Fault, add_events [EvRead off] st).
Proof.
  intros H. unfold read, bind, emit.
  destruct (off <? 0) eqn:E; [reflexivity|].
  destruct (nth_error data (Z.to_nat off)) eqn:N; [|reflexivity].
  assert (nth_error data (Z.to_nat off) <> None) by congruence.
  apply nth_error_Some in H0. lia.
Qed.

Lemma scan_body_out i st :
  Z.of_nat (List.length data) <= i ->
  scan_body w data count pid i st = (Fault, add_events [EvRead i] st).
Proof.
  intros H. unfold scan_body, marker_at, bind at 1 2.
  rewrite read_out by lia. reflexivity.
Qed.

Lemma tame_scan_loop fuel : forall i,
  0 <= i <= Z.of_nat (List.length data) ->
  (List.length data - Z.to_nat i < fuel)%nat ->
  tame (scan_loop w data count pid fuel i).
Proof.
  induction fuel as [|fuel IH]; intros i Hi Hf; [lia|].
  rewrite scan_loop_S.
  destruct (i <? size_t (count - 4)) eqn:E; [|apply tame_ret].
  apply Z.ltb_lt in E. pose proof (size_t_range (count - 4)).
  rewrite (size_t_small (i + 1)) by lia.
  destruct (Z.eq_dec i (Z.of_nat (List.length data))) as [L|L].
  - intros st. unfold bind. rewrite scan_body_out by lia.
    exists [EvRead i]. simpl. auto.
  - apply tame_bind; [apply tame_scan_body|]. intros _. apply IH; lia.
Qed.

Lemma tame_scan_for_title_sequences :
  tame (scan_for_title_sequences w data count pid).
Proof.
  unfold scan_for_title_sequences.
  apply tame_bind; [apply tame_emit|]. intros _.
  apply tame_scan_loop; lia.
Qed.

(** With fewer than four bytes accepted the loop bound [count - 4] wraps
    around, and the loop runs until it leaves the object. *)
Lemma scan_loop_runs_off fuel : forall i st,
  Z.of_nat (List.length data) < size_t (count - 4) ->
  0 <= i <= Z.of_nat (List.length data) ->
  (List.length data - Z.to_nat i < fuel)%nat ->
  fst (scan_loop w data count pid fuel i st) = Fault.
Proof.
  induction fuel as [|fuel IH]; intros i st Hb Hi Hf; [lia|].
  rewrite scan_loop_S.
  replace (i <? size_t (count - 4)) with true by (symmetry; apply Z.ltb_lt; lia).
  pose proof (size_t_range (count - 4)).
  rewrite (size_t_small (i + 1)) by lia.
  destruct (Z.eq_dec i (Z.of_nat (List.length data))) as [L|L].
  - unfold bind. rewrite scan_body_out by lia. reflexivity.
  - unfold bind. destruct (tame_scan_body i st) as [evs [E O]].
    destruct (scan_body w data count pid i st) as [[a| | |] st']; simpl in *;
      try contradiction; [|reflexivity].
    apply IH; lia.
Qed.

End Tame.


(** ** The shim *)

Lemma new_events_intro {A} (m : M A) st o st' evs :
  m st = (o, st') -> trace st' = trace st ++ evs -> new_events m st = evs.
Proof.
  intros H T. unfold new_events. rewrite H. simpl. rewrite T.
  rewrite skipn_app, skipn_all, Nat.sub_diag. reflexivity.
Qed.

Lemma uchar_inj b c : uchar b = uchar c -> b = c.
Proof.
  unfold uchar. intros H. apply N2Z.inj in H.
  pose proof (Byte.of_to_N b) as Hb. pose proof (Byte.of_to_N c) as Hc.
  rewrite H in Hb. congruence.
Qed.

Lemma is_enabled_iff v : is_enabled v = true <-> v = Some (bytes "1").
Proof.
  split.
  - destruct v as [[|c [|d l]]|]; simpl; try discriminate.
    intros H. apply Z.eqb_eq in H. change (bytes "1") with [x31].
    f_equal. f_equal. apply uchar_inj. exact H.
  - intros ->. reflexivity.
Qed.

Section Shim.

Variable w : World.

Lemma resolved_idem st :
  init_once st = true -> original_write st = Some libc_write -> resolved st = st.
Proof. destruct st; simpl; intros; subst; reflexivity. Qed.

(** Steps 1 and 2 of the shim: resolve once, forward the call. *)
Lemma write_forward {B} fd buf count (k : Z -> M B) st :
  resolvable w st ->
  (pthread_once (init_original_write w) ;;
   result <- call_original_write w fd buf count ;; k result) st
  = k (sys_write w fd buf count)
      (add_events (resolution_events st ++ [EvForward fd buf count]) (resolved st)).
Proof.
  unfold resolvable, resolution_events. intros R.
  unfold bind at 1, pthread_once.
  destruct (init_once st) eqn:I.
  - unfold bind at 1, call_original_write, bind at 1. rewrite R.
    unfold bind, emit, ret. rewrite resolved_idem by assumption. reflexivity.
  - unfold init_original_write, bind, emit, add_events, call_original_write, ret,
      resolved; simpl. rewrite R. simpl.
    unfold add_events; simpl. rewrite <- app_assoc. reflexivity.
Qed.

Lemma write_not_triggered fd buf count st :
  resolvable w st -> triggers w fd buf count = false ->
  write w fd buf count st
  = (Ret (sys_write w fd buf count),
     add_events (resolution_events st ++ [EvForward fd buf count]) (resolved st)).
Proof.
  intros R T. unfold write. rewrite write_forward by assumption.
  unfold triggers in T. destruct buf as [data|]; [|reflexivity].
  rewrite T. reflexivity.
Qed.

Lemma write_disabled fd buf count st :
  resolvable w st -> triggers w fd buf count = true ->
  is_enabled (sys_getenv w) = false ->
  write w fd buf count st
  = (Ret (sys_write w fd buf count),
     add_events (resolution_events st ++ [EvForward fd buf count; EvGetenv])
       (resolved st)).
Proof.
  intros R T E. unfold write. rewrite write_forward by assumption.
  unfold triggers in T. destruct buf as [data|]; [|discriminate].
  rewrite T. unfold getenv_toggle, bind, emit, ret. rewrite E.
  rewrite add_events_app, <- app_assoc. reflexivity.
Qed.

Lemma write_enabled fd data count st :
  resolvable w st -> triggers w fd (Some data) count = true ->
  is_enabled (sys_getenv w) = true ->
  write w fd (Some data) count st
  = (scan_for_title_sequences w data
       (size_t (sys_write w fd (Some data) count)) (sys_getpid w) ;;
     ret (sys_write w fd (Some data) count))
      (add_events
         (resolution_events st ++ [EvForward fd (Some data) count; EvGetenv])
         (resolved st)).
Proof.
  intros R T E. unfold write. rewrite write_forward by assumption.
  unfold triggers in T. rewrite T.
  unfold getenv_toggle. unfold bind at 1 2 3, emit, ret. rewrite E.
  rewrite add_events_app, <- app_assoc. reflexivity.
Qed.

(** A triggered, enabled call that accepted at least four bytes, all inside
    the object: the scan stays below the accepted count and the call returns
    what the original returned. *)
Lemma write_scanned fd data count st :
  resolvable w st -> triggers w fd (Some data) count = true ->
  is_enabled (sys_getenv w) = true ->
  4 <= sys_write w fd (Some data) count <= Z.of_nat (List.length data) ->
  sys_write w fd (Some data) count < 2 ^ 64 ->
  exists evs,
    write w fd (Some data) count st
    = (Ret (sys_write w fd (Some data) count),
       add_events
         (resolution_events st
          ++ [EvForward fd (Some data) count; EvGetenv;
              EvScan (sys_write w fd (Some data) count)] ++ evs)
         (resolved st))
    /\ Forall (fun o => 0 <= o < sys_write w fd (Some data) count) (reads evs)
    /\ calls evs
       = flat_map (log_events w (sys_getpid w))
           (scan_titles data (sys_write w fd (Some data) count)).
Proof.
  intros R T E Hn Hmax. rewrite write_enabled by assumption.
  rewrite size_t_small by lia.
  destruct (scan_for_title_sequences_spec w data
              (sys_write w fd (Some data) count) (sys_getpid w)
              ltac:(lia) Hmax
              (add_events
                 (resolution_events st ++ [EvForward fd (Some data) count; EvGetenv])
                 (resolved st)) ltac:(lia))
    as [evs [S [Rd C]]].
  exists evs. unfold bind. rewrite S. unfold ret.
  rewrite add_events_app, <- app_assoc. simpl. repeat split; assumption.
Qed.

(** A triggered, enabled call that accepted one to three bytes: the scan
    leaves the object and the call never returns. *)
Lemma write_short_faults fd data count st :
  resolvable w st -> triggers w fd (Some data) count = true ->
  is_enabled (sys_getenv w) = true ->
  sys_write w fd (Some data) count < 4 ->
  Z.of_nat (List.length data) < 2 ^ 64 - 4 ->
  fst (write w fd (Some data) count st) = Fault.
Proof.
  intros R T E Hn Hlen. rewrite write_enabled by assumption.
  assert (Hpos : 0 < sys_write w fd (Some data) count).
  { unfold triggers in T. apply andb_true_iff in T. destruct T as [_ T].
    now apply Z.gtb_lt in T. }
  set (n := sys_write w fd (Some data) count) in *.
  rewrite (size_t_small n) by lia.
  unfold bind at 1, scan_for_title_sequences, bind at 1, emit.
  match goal with |- context [scan_loop ?a ?b ?c ?d ?e ?f ?s] =>
    pose proof (scan_loop_runs_off a b c d ltac:(lia) e f s) as F end.
  assert (Hb : size_t (n - 4) = 2 ^ 64 + (n - 4)).
  { unfold size_t, SIZE_WIDTH.
    replace (n - 4) with ((n - 4 + 2 ^ 64) + (-1) * 2 ^ 64) by ring.
    rewrite Z.mod_add by lia. rewrite Z.mod_small; lia. }
  specialize (F ltac:(lia) ltac:(lia) ltac:(lia)).
  destruct (scan_loop _ _ _ _ _ _ _) as [[a| | |] st']; simpl in F; try discriminate.
  reflexivity.
Qed.

End Shim.


(** ** Records *)

Lemma appended_calls tr : appended (calls tr) = appended tr.
Proof.
  induction tr as [|e tr IH]; [reflexivity|].
  destruct e; simpl; rewrite ?IH; reflexivity.
Qed.

Lemma scanned_app t1 t2 : scanned (t1 ++ t2) = scanned t1 || scanned t2.
Proof. unfold scanned. apply existsb_app. Qed.

Lemma appended_resolution_events st : appended (resolution_events st) = [].
Proof. unfold resolution_events. destruct (init_once st); reflexivity. Qed.

Lemma scanned_resolution_events st : scanned (resolution_events st) = false.
Proof. unfold resolution_events. destruct (init_once st); reflexivity. Qed.

Lemma reads_resolution_events st : reads (resolution_events st) = [].
Proof. unfold resolution_events. destruct (init_once st); reflexivity. Qed.

Lemma format_entry_length ts p cwd title :
  (0 < List.length (format_entry ts p cwd title))%nat.
Proof. unfold format_entry. rewrite !length_app. simpl. lia. Qed.

(** The record writer appends its line when the log opens and the line is
    shorter than the entry buffer. *)
Lemma appended_log_events w pid title :
  0 <= sys_open w ->
  Z.of_nat (List.length
    (format_entry (sys_timestamp w) pid
       (fst (get_current_working_directory w PATH_MAX)) title)) < LOG_ENTRY_SIZE ->
  appended (log_events w pid title)
  = [format_entry (sys_timestamp w) pid
       (fst (get_current_working_directory w PATH_MAX)) title].
Proof.
  intros Ho Hl. unfold log_events.
  replace (sys_open w >=? 0) with true by (symmetry; apply Z.geb_le; lia).
  set (line := format_entry _ _ _ _) in *.
  pose proof (format_entry_length (sys_timestamp w) pid
                (fst (get_current_working_directory w PATH_MAX)) title) as Hp.
  fold line in Hp.
  assert (Hs : snprintf_result line = Z.of_nat (List.length line)).
  { unfold snprintf_result, INT_MAX. unfold LOG_ENTRY_SIZE in Hl.
    destruct (Z.of_nat (List.length line) <=? 2147483647) eqn:E; [reflexivity|].
    apply Z.leb_gt in E. lia. }
  rewrite Hs.
  replace (Z.of_nat (List.length line) >? 0) with true
    by (symmetry; apply Z.gtb_lt; lia).
  replace (Z.of_nat (List.length line) <? LOG_ENTRY_SIZE) with true
    by (symmetry; apply Z.ltb_lt; lia).
  simpl. rewrite Nat2Z.id, firstn_all. reflexivity.
Qed.

(** The record writer appends nothing when the log does not open or the
    line does not fit. *)
Lemma appended_log_events_dropped w pid title :
  sys_open w < 0 \/
  LOG_ENTRY_SIZE <= Z.of_nat (List.length
    (format_entry (sys_timestamp w) pid
       (fst (get_current_working_directory w PATH_MAX)) title)) ->
  appended (log_events w pid title) = [].
Proof.
  intros H. unfold log_events.
  destruct (sys_open w >=? 0) eqn:Eo; [|reflexivity].
  apply Z.geb_le in Eo. destruct H as [H|H]; [lia|].
  set (line := format_entry _ _ _ _) in *.
  replace ((snprintf_result line >? 0) && (snprintf_result line <? LOG_ENTRY_SIZE))
    with false; [reflexivity|].
  symmetry. unfold snprintf_result.
  destruct (Z.of_nat (List.length line) <=? INT_MAX).
  - apply andb_false_iff. right. apply Z.ltb_ge. exact H.
  - reflexivity.
Qed.

Lemma validate_printable title :
  validate title = true <-> Forall printable title.
Proof.
  induction title as [|c t IH]; simpl.
  - split; auto.
  - unfold schar, SPACE. pose proof (uchar_range c) as Hc.
    split.
    + intros H.
      destruct (128 <=? uchar c) eqn:E128;
        [apply Z.leb_le in E128 | apply Z.leb_gt in E128].
      * replace (uchar c - 256 <? 32) with true in H
          by (symmetry; apply Z.ltb_lt; lia).
        replace (uchar c - 256 =? 32) with false in H
          by (symmetry; apply Z.eqb_neq; lia).
        discriminate.
      * destruct (uchar c <? 32) eqn:E32; simpl in H.
        { apply Z.ltb_lt in E32.
          replace (uchar c =? 32) with false in H
            by (symmetry; apply Z.eqb_neq; lia).
          discriminate. }
        apply Z.ltb_ge in E32.
        destruct (uchar c >? 126) eqn:E126.
        { apply Z.gtb_lt in E126.
          replace (uchar c =? 32) with false in H
            by (symmetry; apply Z.eqb_neq; lia).
          discriminate. }
        rewrite Z.gtb_ltb in E126. apply Z.ltb_ge in E126.
        constructor; [unfold printable; lia | now apply IH].
    + intros H. inversion H as [|? ? Hp Ht]; subst. unfold printable in Hp.
      replace (128 <=? uchar c) with false by (symmetry; apply Z.leb_gt; lia).
      replace (uchar c <? 32) with false by (symmetry; apply Z.ltb_ge; lia).
      replace (uchar c >? 126) with false
        by (symmetry; rewrite Z.gtb_ltb; apply Z.ltb_ge; lia).
      simpl. now apply IH.
Qed.

Lemma c_str_printable title : Forall printable title -> c_str title = title.
Proof.
  induction 1 as [|c t Hc Ht IH]; simpl; [reflexivity|].
  unfold printable in Hc.
  replace (uchar c =? 0) with false by (symmetry; apply Z.eqb_neq; lia).
  now rewrite IH.
Qed.

(** ** The well-formed sequence *)

Lemma scan_titles_hello : scan_titles hello_buffer 10 = [bytes "hello"].
Proof. reflexivity. Qed.

Lemma write_hello_appends w st :
  resolvable w st ->
  sys_getenv w = Some (bytes "1") ->
  sys_write w STDOUT_FILENO (Some hello_buffer) 10 = 10 ->
  0 <= sys_open w ->
  Z.of_nat (List.length
    (format_entry (sys_timestamp w) (sys_getpid w)
       (fst (get_current_working_directory w PATH_MAX)) (bytes "hello")))
    < LOG_ENTRY_SIZE ->
  fst (write w STDOUT_FILENO (Some hello_buffer) 10 st) = Ret 10
  /\ appended (new_events (write w STDOUT_FILENO (Some hello_buffer) 10) st)
     = [format_entry (sys_timestamp w) (sys_getpid w)
          (fst (get_current_working_directory w PATH_MAX)) (bytes "hello")].
Proof.
  intros R E W O L.
  destruct (write_scanned w STDOUT_FILENO hello_buffer 10 st R)
    as [evs [Hw [_ C]]].
  - unfold triggers. rewrite W. reflexivity.
  - apply is_enabled_iff. exact E.
  - rewrite W. simpl. lia.
  - rewrite W. lia.
  - rewrite W in Hw, C. rewrite scan_titles_hello in C.
    cbn [flat_map] in C. rewrite app_nil_r in C.
    split; [rewrite Hw; reflexivity|].
    erewrite new_events_intro; [| exact Hw | reflexivity].
    rewrite !appended_app, appended_resolution_events.
    cbn [appended app]. rewrite <- appended_calls, C.
    apply appended_log_events; assumption.
Qed.


(** ** Candidates *)

Section Candidates.

Variable data : list byte.
Variable count : Z.

Lemma first_terminator_terminated s e :
  0 <= s -> terminated_at data count s e ->
  first_terminator data count (Z.to_nat (count - s)) s = e.
Proof.
  intros Hs [Hr [Ht Hb]].
  destruct (first_terminator_char data count (Z.to_nat (count - s)) s
              ltac:(lia) ltac:(lia)) as [H1 [H2 H3]].
  set (f := first_terminator data count (Z.to_nat (count - s)) s) in *.
  destruct (Z.lt_trichotomy f e) as [L|[L|L]]; [|exact L|].
  - rewrite Hb in H3 by lia. specialize (H3 ltac:(lia)). discriminate.
  - rewrite H2 in Ht by lia. discriminate.
Qed.

Lemma first_terminator_unterminated s :
  0 <= s <= count -> unterminated data count s ->
  first_terminator data count (Z.to_nat (count - s)) s = count.
Proof.
  intros Hs Hu.
  destruct (first_terminator_char data count (Z.to_nat (count - s)) s
              ltac:(lia) ltac:(lia)) as [H1 [H2 H3]].
  set (f := first_terminator data count (Z.to_nat (count - s)) s) in *.
  destruct (Z.eq_dec f count) as [E|E]; [exact E|].
  rewrite Hu in H3 by lia. specialize (H3 ltac:(lia)). discriminate.
Qed.

Lemma retained_payload s e :
  retained data s e = firstn (Z.to_nat TITLE_MAX) (payload data s e).
Proof.
  unfold retained, payload. rewrite firstn_firstn. f_equal.
  unfold TITLE_MAX. lia.
Qed.

Lemma retained_length s e :
  0 <= s -> e <= Z.of_nat (List.length data) -> TITLE_MAX < e - s ->
  List.length (retained data s e) = Z.to_nat TITLE_MAX.
Proof.
  intros Hs He Hl. unfold retained. rewrite length_firstn, length_skipn.
  unfold TITLE_MAX in *. lia.
Qed.

(** The byte of the retained title that came from offset [k]. *)
Lemma retained_nth s e k :
  0 <= s -> s <= k < e -> k < s + TITLE_MAX ->
  nth (Z.to_nat (k - s)) (retained data s e) x00 = nth (Z.to_nat k) data x00.
Proof.
  intros Hs Hk Hm. unfold retained. rewrite nth_firstn.
  replace (Z.to_nat (k - s) <? Z.to_nat (Z.min (e - s) TITLE_MAX))%nat with true
    by (symmetry; apply Nat.ltb_lt; unfold TITLE_MAX in *; lia).
  rewrite nth_skipn. f_equal. lia.
Qed.

Lemma candidate_title_yielded i e :
  0 <= i -> terminated_at data count (i + 4) e -> i + 4 < e ->
  Forall printable (retained data (i + 4) e) ->
  candidate_title data count i = Some (retained data (i + 4) e).
Proof.
  intros Hi Ht Hne Hp. unfold candidate_title.
  rewrite (first_terminator_terminated (i + 4) e) by (assumption || lia).
  destruct Ht as [Hr _].
  replace (e <? count) with true by (symmetry; apply Z.ltb_lt; lia).
  replace (e >? i + 4) with true by (symmetry; apply Z.gtb_lt; lia).
  apply validate_printable in Hp. cbn [andb]. now rewrite Hp.
Qed.

Lemma candidate_title_unterminated i :
  0 <= i -> i + 4 <= count -> unterminated data count (i + 4) ->
  candidate_title data count i = None.
Proof.
  intros Hi Hc Hu. unfold candidate_title.
  rewrite first_terminator_unterminated by (assumption || lia).
  now rewrite Z.ltb_irrefl.
Qed.

Lemma candidate_title_empty i :
  0 <= i -> i + 4 < count -> terminator_at data count (i + 4) = true ->
  candidate_title data count i = None.
Proof.
  intros Hi Hc Ht. unfold candidate_title.
  rewrite (first_terminator_terminated (i + 4) (i + 4)).
  - replace (i + 4 >? i + 4) with false
      by (symmetry; rewrite Z.gtb_ltb; apply Z.ltb_irrefl).
    now rewrite andb_false_r.
  - lia.
  - repeat split; try lia. exact Ht.
Qed.

Lemma candidate_title_invalid i e k :
  count <= Z.of_nat (List.length data) ->
  0 <= i -> terminated_at data count (i + 4) e ->
  i + 4 <= k < e -> k < i + 4 + TITLE_MAX ->
  ~ (32 <= get data k <= 126) ->
  candidate_title data count i = None.
Proof.
  intros Hc Hi Ht Hk Hm Hb. unfold candidate_title.
  rewrite (first_terminator_terminated (i + 4) e) by (assumption || lia).
  destruct (_ && _); [|reflexivity].
  destruct (validate (retained data (i + 4) e)) eqn:V; [|reflexivity].
  exfalso. apply Hb.
  apply validate_printable in V.
  rewrite Forall_nth in V.
  specialize (V (Z.to_nat (k - (i + 4))) x00).
  rewrite retained_nth in V by lia.
  apply V. unfold retained. rewrite length_firstn, length_skipn.
  destruct Ht as [Hr _]. unfold TITLE_MAX in *. lia.
Qed.

End Candidates.


(** ** What one iteration of the scan logs *)

Section Iteration.

Variable w : World.
Variable data : list byte.
Variable count : Z.
Variable pid : Z.

Hypothesis count_le : count <= Z.of_nat (List.length data).
Hypothesis count_max : count < 2 ^ 64.

Lemma handle_candidate_calls i st :
  0 <= i -> i + 4 <= count ->
  fst (handle_candidate w data count pid i st) = Ret tt
  /\ calls (new_events (handle_candidate w data count pid i) st)
     = match candidate_title data count i with
       | Some t => log_events w pid t
       | None => []
       end
  /\ Forall (fun o => 0 <= o < count)
       (reads (new_events (handle_candidate w data count pid i) st)).
Proof.
  intros Hi Hc.
  destruct (handle_candidate_spec w data count pid count_le count_max i st Hi Hc)
    as [offs [E F]].
  rewrite (new_events_add _ _ _ _ E). rewrite E. split; [reflexivity|].
  rewrite calls_app, calls_map_EvRead, reads_app, reads_map_EvRead. simpl.
  destruct (candidate_title data count i).
  - rewrite calls_log_events, reads_log_events, app_nil_r. auto.
  - rewrite app_nil_r. auto.
Qed.

Lemma scan_body_calls i st :
  0 <= i -> i + 4 < count ->
  fst (scan_body w data count pid i st) = Ret tt
  /\ calls (new_events (scan_body w data count pid i) st)
     = flat_map (log_events w pid) (titles_at data count i).
Proof.
  intros Hi Hc.
  destruct (scan_body_spec w data count pid count_le count_max i st Hi Hc)
    as [offs [E F]].
  rewrite (new_events_add _ _ _ _ E). rewrite E. split; [reflexivity|].
  rewrite calls_app, calls_map_EvRead. simpl.
  unfold titles_at. destruct (is_marker data i); [|reflexivity].
  destruct (candidate_title data count i); [|reflexivity].
  cbn [flat_map]. now rewrite app_nil_r, calls_log_events.
Qed.

End Iteration.

(** The scanner always announces itself, then returns or faults. *)
Lemma scan_shape w data count pid st :
  0 <= count < 2 ^ 64 ->
  exists evs,
    snd (scan_for_title_sequences w data count pid st)
    = add_events (EvScan count :: evs) st
    /\ (fst (scan_for_title_sequences w data count pid st) = Ret tt
        \/ fst (scan_for_title_sequences w data count pid st) = Fault).
Proof.
  intros Hc. unfold scan_for_title_sequences, bind, emit.
  destruct (tame_scan_loop w data count pid Hc
              (S (List.length data)) 0 ltac:(lia) ltac:(lia)
              (add_events [EvScan count] st)) as [evs [S O]].
  destruct (scan_loop _ _ _ _ _ _ _) as [[[]| | |] st']; simpl in *;
    try contradiction; subst st'; exists evs;
    rewrite add_events_app; simpl; auto.
Qed.

(** The events of a triggered, enabled call, whether the scan returns or
    leaves the object. *)
Lemma write_enabled_shape w fd data count st :
  resolvable w st -> triggers w fd (Some data) count = true ->
  is_enabled (sys_getenv w) = true ->
  exists evs,
    snd (write w fd (Some data) count st)
    = add_events
        (resolution_events st
         ++ [EvForward fd (Some data) count; EvGetenv;
             EvScan (size_t (sys_write w fd (Some data) count))] ++ evs)
        (resolved st)
    /\ (fst (write w fd (Some data) count st)
          = Ret (sys_write w fd (Some data) count)
        \/ fst (write w fd (Some data) count st) = Fault).
Proof.
  intros R T E. rewrite write_enabled by assumption.
  set (st1 := add_events _ (resolved st)).
  destruct (scan_shape w data (size_t (sys_write w fd (Some data) count))
              (sys_getpid w) st1 (size_t_range _)) as [evs [S O]].
  exists evs. unfold bind.
  destruct (scan_for_title_sequences _ _ _ _ _) as [[a| | |] st']; simpl in *;
    subst st'; unfold st1; rewrite add_events_app, <- app_assoc; simpl;
    (split; [reflexivity|]); destruct O as [O|O]; try discriminate; auto.
Qed.

Lemma trace_write_events w fd buf count st evs o :
  write w fd buf count st = (o, add_events evs (resolved st)) ->
  new_events (write w fd buf count) st = evs.
Proof. intros H. eapply new_events_intro; [exact H | reflexivity]. Qed.


(** ** Long and dropped candidates *)

Lemma Forall_firstn_of {A} (P : A -> Prop) n (l : list A) :
  Forall P l -> Forall P (firstn n l).
Proof.
  revert l. induction n as [|n IH]; intros l H; [constructor|].
  destruct H; simpl; constructor; auto.
Qed.

(** A terminator search that was run gives the terminated candidate. *)
Lemma terminated_at_computed data count s e :
  0 <= s <= count ->
  first_terminator data count (Z.to_nat (count - s)) s = e -> e < count ->
  terminated_at data count s e.
Proof.
  intros Hs F L.
  destruct (first_terminator_char data count (Z.to_nat (count - s)) s
              ltac:(lia) ltac:(lia)) as [H1 [H2 H3]].
  rewrite F in *. repeat split; try lia; auto.
Qed.

(** The same through the shim: 300 letters between marker and BEL. *)
Lemma write_long_buffer :
  appended (new_events
              (write (demo_world toggle_on 305) STDOUT_FILENO (Some long_buffer) 305)
              initial_state)
  = [bytes "2024-01-01 10:00:00|4242|/workspace|" ++ repeat x61 200 ++ [x0a]].
Proof. vm_compute. reflexivity. Qed.

(** An iteration that finds no title logs nothing. *)
Lemma scan_body_silent w data count pid j st :
  count <= Z.of_nat (List.length data) -> count < 2 ^ 64 ->
  0 <= j -> j + 4 < count ->
  titles_at data count j = [] ->
  fst (scan_body w data count pid j st) = Ret tt
  /\ calls (new_events (scan_body w data count pid j) st) = []
  /\ appended (new_events (scan_body w data count pid j) st) = [].
Proof.
  intros Hle Hmax Hj Hc Ht.
  destruct (scan_body_calls w data count pid Hle Hmax j st Hj Hc) as [Hf Hcalls].
  rewrite Ht in Hcalls. simpl in Hcalls.
  split; [exact Hf|]. split; [exact Hcalls|].
  rewrite <- appended_calls, Hcalls. reflexivity.
Qed.

(** C6: a candidate (the marker matched at [i]) yields no record when no
    terminator follows before the end of the scanned bytes, when the
    terminator follows the marker at once (empty payload), or when one of
    the retained payload bytes is outside 32..126: the whole candidate is
    dropped and the iteration logs nothing. *)
Theorem dropped_candidates_log_nothing w data count pid i st :
  count <= Z.of_nat (List.length data) -> count < 2 ^ 64 ->
  0 <= i -> i + 4 < count ->
  is_marker data i = true ->
  (unterminated data count (i + 4)
   \/ terminator_at data count (i + 4) = true
   \/ exists e k,
        terminated_at data count (i + 4) e
        /\ i + 4 <= k < e /\ k < i + 4 + TITLE_MAX
        /\ ~ (32 <= get data k <= 126)) ->
  fst (scan_body w data count pid i st) = Ret tt
  /\ calls (new_events (scan_body w data count pid i) st) = []
  /\ appended (new_events (scan_body w data count pid i) st) = [].
Proof.
  intros Hle Hmax Hi Hc Hm Hdrop.
  apply scan_body_silent; try assumption.
  unfold titles_at. rewrite Hm.
  replace (candidate_title data count i) with (@None (list byte)); [reflexivity|].
  symmetry. destruct Hdrop as [Hu | [He | [e [k [Ht [Hk [Hk' Hb]]]]]]].
  - apply candidate_title_unterminated; (assumption || lia).
  - apply candidate_title_empty; (assumption || lia).
  - apply (candidate_title_invalid data count i e k); assumption.
Qed.

Lemma dropped_candidates_log_nothing_witness :
  get control_buffer 6 = 1
  /\ fst (scan_body (demo_world toggle_on 11) control_buffer 11 4242 0
            initial_state) = Ret tt
  /\ calls (new_events
              (scan_body (demo_world toggle_on 11) control_buffer 11 4242 0)
              initial_state) = []
  /\ appended (new_events
                 (scan_body (demo_world toggle_on 11) control_buffer 11 4242 0)
                 initial_state) = [].
Proof.
  split; [reflexivity|].
  apply (dropped_candidates_log_nothing (demo_world toggle_on 11) control_buffer
           11 4242 0 initial_state).
  - simpl. lia.
  - lia.
  - lia.
  - lia.
  - reflexivity.
  - right. right. exists 10, 6. split; [|split; [|split]].
    + apply terminated_at_computed; [lia | reflexivity | lia].
    + lia.
    + unfold TITLE_MAX. lia.
    + replace (get control_buffer 6) with 1 by reflexivity. lia.
Defined.

(** The three kinds of dropped candidate through the shim: an unterminated
    sequence, an empty payload, a control byte in the payload. *)
Lemma write_dropped_examples :
  appended (new_events
              (write (demo_world toggle_on 9) STDOUT_FILENO
                 (Some (OSC0 ++ bytes "hello")) 9) initial_state) = []
  /\ appended (new_events
                 (write (demo_world toggle_on 10) STDOUT_FILENO
                    (Some (OSC0 ++ [x07] ++ bytes "hello")) 10) initial_state) = []
  /\ appended (new_events
                 (write (demo_world toggle_on 11) STDOUT_FILENO
                    (Some control_buffer) 11) initial_state) = [].
Proof. vm_compute. auto. Qed.

(** ** Resumption of the scan *)

Lemma is_marker_needs_esc data j : get data j <> ESC -> is_marker data j = false.
Proof.
  intros H. unfold is_marker.
  replace (get data j =? ESC) with false by (symmetry; now apply Z.eqb_neq).
  reflexivity.
Qed.

Lemma titles_at_unmarked data count j :
  is_marker data j = false -> titles_at data count j = [].
Proof. intros H. unfold titles_at. now rewrite H. Qed.

(** No leading marker starts inside the marker, the retained title or the
    terminator of a candidate that yielded a title. *)
Lemma no_marker_in_yielded data count i e j :
  count <= Z.of_nat (List.length data) ->
  0 <= i ->
  is_marker data i = true ->
  terminated_at data count (i + 4) e -> i + 4 < e ->
  Forall printable (retained data (i + 4) e) ->
  i < j ->
  (j < i + 4 + Z.min (e - (i + 4)) TITLE_MAX
   \/ j = e \/ (j = e + 1 /\ get data e = ESC)) ->
  is_marker data j = false.
Proof.
  intros Hle Hi Hm [Hr [Ht Hb]] Hne Hp Hj Hreg.
  unfold is_marker in Hm.
  apply andb_true_iff in Hm. destruct Hm as [Hm H3].
  apply andb_true_iff in Hm. destruct Hm as [Hm H2].
  apply andb_true_iff in Hm. destruct Hm as [H0 H1].
  apply Z.eqb_eq in H0, H1, H3.
  apply orb_true_iff in H2. rewrite !Z.eqb_eq in H2.
  unfold ESC, RBRACKET, DIGIT0, DIGIT2, SEMI in *.
  unfold terminator_at in Ht. apply orb_true_iff in Ht.
  destruct Hreg as [Hreg | [Hreg | [Hreg Hesc]]].
  - apply is_marker_needs_esc. unfold ESC.
    destruct (Z_lt_dec j (i + 4)) as [L|L].
    + assert (j = i + 1 \/ j = i + 2 \/ j = i + 3) as [->|[->| ->]] by lia; lia.
    + assert (Hin : printable (nth (Z.to_nat (j - (i + 4))) (retained data (i + 4) e) x00)).
      { rewrite Forall_nth in Hp. apply Hp.
        unfold retained. rewrite length_firstn, length_skipn.
        unfold TITLE_MAX in *. lia. }
      rewrite retained_nth in Hin by (unfold TITLE_MAX in *; lia).
      unfold printable in Hin. unfold get. lia.
  - subst j. destruct Ht as [Ht | Ht].
    + apply is_marker_needs_esc. apply Z.eqb_eq in Ht. unfold BEL, ESC in *. lia.
    + apply andb_true_iff in Ht. destruct Ht as [_ Ht]. apply Z.eqb_eq in Ht.
      unfold is_marker.
      replace (get data (e + 1) =? RBRACKET) with false
        by (symmetry; apply Z.eqb_neq; unfold BACKSLASH, RBRACKET in *; lia).
      now rewrite andb_false_r.
  - subst j. apply is_marker_needs_esc. destruct Ht as [Ht | Ht].
    + apply Z.eqb_eq in Ht. unfold BEL, ESC in *. lia.
    + apply andb_true_iff in Ht. destruct Ht as [_ Ht]. apply Z.eqb_eq in Ht.
      unfold BACKSLASH, ESC in *. lia.
Qed.

(** ** Properties of the shim and of the scanner *)

(** C1 (transparency of the return value) fails on the code.  On a call to
    stdout with the toggle on of which the original accepts one byte, the
    loop bound [count - 4] of the scanner wraps around to [2^64 - 3]; the
    scan reads [data[1]], outside the one-byte buffer, and the call does not
    return the [1] the original returned. *)
Theorem write_short_accept_never_returns :
  sys_write (demo_world toggle_on 1) STDOUT_FILENO (Some (bytes "a")) 1 = 1
  /\ fst (write (demo_world toggle_on 1) STDOUT_FILENO (Some (bytes "a")) 1
            initial_state) = Fault
  /\ reads (new_events
              (write (demo_world toggle_on 1) STDOUT_FILENO (Some (bytes "a")) 1)
              initial_state) = [0; 1].
Proof. vm_compute. repeat split. Qed.

(** C2 (the scanner stays below the accepted count) fails on the code for
    accepted counts below four.  With 100 bytes requested and 3 accepted the
    scanner reads offset 3 (and every offset up to the end of the buffer);
    with 40 accepted every offset it reads is below 40. *)
Theorem scan_reads_past_short_accept :
  sys_write (demo_world toggle_on 3) STDOUT_FILENO (Some plain_buffer) 100 = 3
  /\ In 3 (reads (new_events
                   (write (demo_world toggle_on 3) STDOUT_FILENO
                      (Some plain_buffer) 100) initial_state))
  /\ sys_write (demo_world toggle_on 40) STDOUT_FILENO (Some plain_buffer) 100 = 40
  /\ forallb (fun off => (0 <=? off) && (off <? 40))
       (reads (new_events
                 (write (demo_world toggle_on 40) STDOUT_FILENO
                    (Some plain_buffer) 100) initial_state)) = true.
Proof.
  split; [reflexivity|]. split.
  - vm_compute. do 3 right. left. reflexivity.
  - split; [reflexivity|]. vm_compute. reflexivity.
Qed.

(** C3: the buffer [ESC ] 0 ; hello BEL] sent to stdout with the toggle on
    and accepted whole makes the call append exactly one record, whose title
    field is [hello] (the log file opens and the line fits the entry
    buffer). *)
Theorem single_sequence_appends_one_record w st :
  resolvable w st ->
  sys_getenv w = Some (bytes "1") ->
  sys_write w STDOUT_FILENO (Some hello_buffer) 10 = 10 ->
  0 <= sys_open w ->
  Z.of_nat (List.length
    (format_entry (sys_timestamp w) (sys_getpid w)
       (fst (get_current_working_directory w PATH_MAX)) (bytes "hello")))
    < LOG_ENTRY_SIZE ->
  hello_buffer = [x1b; x5d; x30; x3b; x68; x65; x6c; x6c; x6f; x07]
  /\ fst (write w STDOUT_FILENO (Some hello_buffer) 10 st) = Ret 10
  /\ appended (new_events (write w STDOUT_FILENO (Some hello_buffer) 10) st)
     = [sys_timestamp w ++ [x7c] ++ decimal (sys_getpid w) ++ [x7c]
        ++ fst (get_current_working_directory w PATH_MAX) ++ [x7c]
        ++ bytes "hello" ++ [x0a]].
Proof.
  intros R E W O L. split; [reflexivity|].
  exact (write_hello_appends w st R E W O L).
Qed.

Lemma single_sequence_appends_one_record_witness :
  resolvable (demo_world toggle_on 10) initial_state
  /\ fst (write (demo_world toggle_on 10) STDOUT_FILENO (Some hello_buffer) 10
            initial_state) = Ret 10
  /\ appended (new_events
                 (write (demo_world toggle_on 10) STDOUT_FILENO
                    (Some hello_buffer) 10) initial_state)
     = [bytes "2024-01-01 10:00:00|4242|/workspace|hello" ++ [x0a]].
Proof.
  split; [reflexivity|].
  apply (single_sequence_appends_one_record (demo_world toggle_on 10) initial_state).
  - reflexivity.
  - reflexivity.
  - reflexivity.
  - simpl. lia.
  - vm_compute. reflexivity.
Defined.

(** C4: the scanner runs on a call exactly when the toggle read on that
    call is the string "1" and the conditions on fd, buffer and byte counts
    hold; with any other value or none the call is still forwarded and
    returns, but nothing is read or appended; the same buffer sent with the
    toggle off and then on appends nothing the first time and one record
    the second time. *)
Theorem toggle_gates_scanning w st fd buf count :
  resolvable w st ->
  (scanned (new_events (write w fd buf count) st) = true
   <-> sys_getenv w = Some (bytes "1") /\ triggers w fd buf count = true)
  /\ (sys_getenv w <> Some (bytes "1") ->
      fst (write w fd buf count st) = Ret (sys_write w fd buf count)
      /\ In (EvForward fd buf count) (new_events (write w fd buf count) st)
      /\ reads (new_events (write w fd buf count) st) = []
      /\ appended (new_events (write w fd buf count) st) = [])
  /\ (forall w_on,
      sys_getenv w <> Some (bytes "1") ->
      sys_getenv w_on = Some (bytes "1") ->
      sys_write w_on STDOUT_FILENO (Some hello_buffer) 10 = 10 ->
      0 <= sys_open w_on ->
      Z.of_nat (List.length
        (format_entry (sys_timestamp w_on) (sys_getpid w_on)
           (fst (get_current_working_directory w_on PATH_MAX)) (bytes "hello")))
        < LOG_ENTRY_SIZE ->
      appended (new_events (write w STDOUT_FILENO (Some hello_buffer) 10) st) = []
      /\ appended
           (new_events (write w_on STDOUT_FILENO (Some hello_buffer) 10)
              (snd (write w STDOUT_FILENO (Some hello_buffer) 10 st)))
         = [sys_timestamp w_on ++ [x7c] ++ decimal (sys_getpid w_on) ++ [x7c]
            ++ fst (get_current_working_directory w_on PATH_MAX) ++ [x7c]
            ++ bytes "hello" ++ [x0a]]).
Proof.
  intros R.
  assert (Off : forall fd' buf' count',
    is_enabled (sys_getenv w) = false ->
    exists evs,
      write w fd' buf' count' st
      = (Ret (sys_write w fd' buf' count'),
         add_events (resolution_events st ++ EvForward fd' buf' count' :: evs)
           (resolved st))
      /\ (evs = [] \/ evs = [EvGetenv])).
  { intros fd' buf' count' D.
    destruct (triggers w fd' buf' count') eqn:T.
    - exists [EvGetenv]. rewrite write_disabled by assumption. auto.
    - exists []. rewrite write_not_triggered by assumption. auto. }
  assert (Dis : sys_getenv w <> Some (bytes "1") ->
                is_enabled (sys_getenv w) = false).
  { intros N. destruct (is_enabled (sys_getenv w)) eqn:D; [|reflexivity].
    apply is_enabled_iff in D. contradiction. }
  split; [|split].
  - split.
    + intros S. destruct (is_enabled (sys_getenv w)) eqn:D.
      * split; [now apply is_enabled_iff|].
        destruct (triggers w fd buf count) eqn:T; [reflexivity|].
        rewrite (trace_write_events _ _ _ _ _ _ _
                   (write_not_triggered w fd buf count st R T)) in S.
        rewrite scanned_app, scanned_resolution_events in S. discriminate.
      * destruct (Off fd buf count eq_refl) as [evs [Hw He]].
        rewrite (trace_write_events _ _ _ _ _ _ _ Hw) in S.
        rewrite scanned_app, scanned_resolution_events in S.
        destruct He; subst evs; discriminate.
    + intros [E T]. apply is_enabled_iff in E.
      destruct buf as [data|]; [|discriminate].
      destruct (write_enabled_shape w fd data count st R T E) as [evs [Hs _]].
      unfold new_events. rewrite Hs. simpl.
      rewrite skipn_app, skipn_all, Nat.sub_diag. simpl.
      rewrite scanned_app. simpl. apply orb_true_r.
  - intros N. destruct (Off fd buf count (Dis N)) as [evs [Hw He]].
    rewrite (trace_write_events _ _ _ _ _ _ _ Hw), Hw.
    split; [reflexivity|]. split; [apply in_or_app; right; left; reflexivity|].
    rewrite reads_app, appended_app, reads_resolution_events,
      appended_resolution_events.
    destruct He; subst evs; auto.
  - intros w_on N E W O L.
    destruct (Off STDOUT_FILENO (Some hello_buffer) 10 (Dis N)) as [evs [Hw He]].
    rewrite (trace_write_events _ _ _ _ _ _ _ Hw), Hw.
    split.
    + rewrite appended_app, appended_resolution_events.
      destruct He; subst evs; reflexivity.
    + apply (write_hello_appends w_on); try assumption. reflexivity.
Qed.

Lemma toggle_gates_scanning_witness :
  resolvable (demo_world None 10) initial_state
  /\ appended (new_events
                 (write (demo_world None 10) STDOUT_FILENO (Some hello_buffer) 10)
                 initial_state) = []
  /\ appended
       (new_events
          (write (demo_world toggle_on 10) STDOUT_FILENO (Some hello_buffer) 10)
          (snd (write (demo_world None 10) STDOUT_FILENO (Some hello_buffer) 10
                  initial_state)))
     = [bytes "2024-01-01 10:00:00|4242|/workspace|hello" ++ [x0a]].
Proof.
  split; [reflexivity|].
  apply (toggle_gates_scanning (demo_world None 10) initial_state
           STDOUT_FILENO (Some hello_buffer) 10).
  - reflexivity.
  - discriminate.
  - reflexivity.
  - reflexivity.
  - simpl. lia.
  - vm_compute. reflexivity.
Defined.

(** C7 as stated fails on the code.  In [nested_buffer] the candidate at
    offset 0 is yielded (its title is the first 200 of its 205 payload
    bytes, its terminator the BEL at offset 209); the scan then examines
    offset 204, inside that payload, finds the marker [ESC ] 2 ;] there and
    appends a second record, with title [b]. *)
Lemma nested_marker_is_reexamined :
  titles_at nested_buffer 210 0 = [repeat x61 200]
  /\ terminated_at nested_buffer 210 4 209
  /\ 0 < 204 < 209
  /\ titles_at nested_buffer 210 204 = [bytes "b"]
  /\ appended (new_events
                 (write (demo_world toggle_on 210) STDOUT_FILENO
                    (Some nested_buffer) 210) initial_state)
     = [bytes "2024-01-01 10:00:00|4242|/workspace|" ++ repeat x61 200 ++ [x0a];
        bytes "2024-01-01 10:00:00|4242|/workspace|b" ++ [x0a]].
Proof.
  split; [reflexivity|]. split.
  - apply terminated_at_computed; [lia | reflexivity | lia].
  - split; [lia|]. split; [reflexivity|]. vm_compute. reflexivity.
Qed.

(** The one-time resolution when [dlsym] finds nothing. *)
Lemma pthread_once_unresolved w st :
  init_once st = false -> sys_dlsym w = None ->
  pthread_once (init_original_write w) st
  = (Exited 1,
     {| init_once := true; original_write := None;
        trace := trace st ++ [EvDlsym; EvStderr resolution_failure_message] |}).
Proof.
  intros I D. unfold pthread_once. rewrite I.
  unfold init_original_write, bind, emit, exit, add_events. simpl.
  rewrite D. simpl. rewrite <- app_assoc. reflexivity.
Qed.

Lemma write_unresolved w fd buf count st :
  init_once st = false -> sys_dlsym w = None ->
  write w fd buf count st
  = (Exited 1,
     {| init_once := true; original_write := None;
        trace := trace st ++ [EvDlsym; EvStderr resolution_failure_message] |}).
Proof.
  intros I D. unfold write, bind at 1.
  now rewrite pthread_once_unresolved.
Qed.

(** C8: when [dlsym] does not find the original during the one-time
    resolution the call exits with status 1 after that single lookup and a
    message on stderr, without forwarding anything (the same holds for the
    load-time constructor); once the original is resolved a call never
    exits, and what it returns is what the original returned. *)
Theorem resolver_failure_is_fatal w st fd buf count :
  (init_once st = false -> sys_dlsym w = None ->
   fst (write w fd buf count st) = Exited 1
   /\ new_events (write w fd buf count) st
      = [EvDlsym; EvStderr resolution_failure_message]
   /\ (is_enabled (sys_getenv w) = true ->
       fst (init_title_interceptor w st) = Exited 1))
  /\ (resolvable w st ->
      (forall code, fst (write w fd buf count st) <> Exited code)
      /\ (forall v, fst (write w fd buf count st) = Ret v ->
                    v = sys_write w fd buf count)).
Proof.
  split.
  - intros I D. split; [now rewrite write_unresolved|]. split.
    + eapply new_events_intro; [now apply write_unresolved | reflexivity].
    + intros E. unfold init_title_interceptor, getenv_toggle.
      unfold bind at 1, bind at 1, emit, ret. rewrite E. simpl.
      now rewrite pthread_once_unresolved.
  - intros R.
    assert (H : fst (write w fd buf count st) = Ret (sys_write w fd buf count)
                \/ fst (write w fd buf count st) = Fault).
    { destruct (triggers w fd buf count) eqn:T.
      - destruct (is_enabled (sys_getenv w)) eqn:E.
        + destruct buf as [data|]; [|discriminate].
          destruct (write_enabled_shape w fd data count st R T E) as [evs [_ O]].
          exact O.
        + left. now rewrite write_disabled.
      - left. now rewrite write_not_triggered. }
    split.
    + intros code C. destruct H as [H|H]; rewrite H in C; discriminate.
    + intros v V. destruct H as [H|H]; rewrite H in V; congruence.
Qed.

Lemma resolver_failure_is_fatal_witness :
  init_once initial_state = false /\ sys_dlsym unlinked_world = None
  /\ fst (write unlinked_world STDOUT_FILENO (Some hello_buffer) 10 initial_state)
     = Exited 1
  /\ resolvable (demo_world toggle_on 10) initial_state
  /\ (forall v,
        fst (write (demo_world toggle_on 10) STDOUT_FILENO (Some hello_buffer) 10
               initial_state) = Ret v -> v = 10).
Proof.
  split; [reflexivity|]. split; [reflexivity|]. split.
  - apply (resolver_failure_is_fatal unlinked_world initial_state STDOUT_FILENO
             (Some hello_buffer) 10); reflexivity.
  - split; [reflexivity|].
    apply (resolver_failure_is_fatal (demo_world toggle_on 10) initial_state
             STDOUT_FILENO (Some hello_buffer) 10). reflexivity.
Defined.

(** C10: the whole formatted line has to be shorter than the 1024-byte
    entry buffer.  With the log open, a line of 1024 bytes or more is not
    written at all (the file is opened and closed again), whatever the
    title; a shorter line is written whole.  A working directory of 1100
    bytes thus loses the record of the valid title [hello]. *)
Theorem oversized_line_dropped w pid title st :
  0 <= sys_open w ->
  (LOG_ENTRY_SIZE <= Z.of_nat (List.length
      (format_entry (sys_timestamp w) pid
         (fst (get_current_working_directory w PATH_MAX)) title)) ->
   log_title w pid title st
   = (Ret tt, add_events [EvOpenLog; EvCloseLog (sys_open w)] st))
  /\ (Z.of_nat (List.length
        (format_entry (sys_timestamp w) pid
           (fst (get_current_working_directory w PATH_MAX)) title))
      < LOG_ENTRY_SIZE ->
      log_title w pid title st
      = (Ret tt,
         add_events
           [EvOpenLog;
            EvLogWrite (sys_open w)
              (format_entry (sys_timestamp w) pid
                 (fst (get_current_working_directory w PATH_MAX)) title)
              (Z.of_nat (List.length
                 (format_entry (sys_timestamp w) pid
                    (fst (get_current_working_directory w PATH_MAX)) title)));
            EvCloseLog (sys_open w)] st))
  /\ validate (bytes "hello") = true
  /\ fst (write deep_world STDOUT_FILENO (Some hello_buffer) 10 initial_state)
     = Ret 10
  /\ appended (new_events
                 (write deep_world STDOUT_FILENO (Some hello_buffer) 10)
                 initial_state) = [].
Proof.
  intros Ho.
  set (line := format_entry _ _ _ _).
  assert (Hopen : (sys_open w >=? 0) = true) by (apply Z.geb_le; lia).
  split; [|split].
  - intros Hl. rewrite log_title_events. unfold log_events. rewrite Hopen.
    fold line.
    replace ((snprintf_result line >? 0) && (snprintf_result line <? LOG_ENTRY_SIZE))
      with false; [reflexivity|].
    symmetry. unfold snprintf_result.
    destruct (Z.of_nat (List.length line) <=? INT_MAX).
    + apply andb_false_iff. right. apply Z.ltb_ge. exact Hl.
    + reflexivity.
  - intros Hl. rewrite log_title_events. unfold log_events. rewrite Hopen.
    fold line.
    pose proof (format_entry_length (sys_timestamp w) pid
                  (fst (get_current_working_directory w PATH_MAX)) title) as Hp.
    fold line in Hp.
    assert (Hs : snprintf_result line = Z.of_nat (List.length line)).
    { unfold snprintf_result, INT_MAX. unfold LOG_ENTRY_SIZE in Hl.
      destruct (Z.of_nat (List.length line) <=? 2147483647) eqn:E; [reflexivity|].
      apply Z.leb_gt in E. lia. }
    rewrite Hs.
    replace (Z.of_nat (List.length line) >? 0) with true
      by (symmetry; apply Z.gtb_lt; lia).
    replace (Z.of_nat (List.length line) <? LOG_ENTRY_SIZE) with true
      by (symmetry; apply Z.ltb_lt; lia).
    reflexivity.
  - vm_compute. auto.
Qed.

Lemma oversized_line_dropped_witness :
  0 <= sys_open deep_world
  /\ List.length (format_entry (sys_timestamp deep_world) 4242
                    (fst (get_current_working_directory deep_world PATH_MAX))
                    (bytes "hello")) = 1132%nat
  /\ log_title deep_world 4242 (bytes "hello") initial_state
     = (Ret tt, add_events [EvOpenLog; EvCloseLog 3] initial_state).
Proof.
  split; [simpl; lia|]. split; [reflexivity|].
  apply (oversized_line_dropped deep_world 4242 (bytes "hello") initial_state).
  - simpl. lia.
  - vm_compute. discriminate.
Defined.

(** ** Computations that do not look at the state *)

Section Uniform.

Variable P : event -> Prop.

Lemma uniform_ret {A} (a : A) : uniform P (ret a).
Proof.
  exists (Ret a), []. split; [constructor|].
  intros st. now rewrite add_events_nil.
Qed.

Lemma uniform_fault {A} : uniform P (@fault A).
Proof.
  exists Fault, []. split; [constructor|].
  intros st. now rewrite add_events_nil.
Qed.

Lemma uniform_out_of_fuel {A} : uniform P (@out_of_fuel A).
Proof.
  exists OutOfFuel, []. split; [constructor|].
  intros st. now rewrite add_events_nil.
Qed.

Lemma uniform_emit e : P e -> uniform P (emit e).
Proof.
  intros H. exists (Ret tt), [e]. split; [repeat constructor; exact H|].
  reflexivity.
Qed.

Lemma uniform_bind {A B} (m : M A) (k : A -> M B) :
  uniform P m -> (forall a, uniform P (k a)) -> uniform P (bind m k).
Proof.
  intros [o [evs [F H]]] Hk. destruct o as [a| |c|].
  - destruct (Hk a) as [o' [evs' [F' H']]].
    exists o', (evs ++ evs'). split; [now apply Forall_app|].
    intros st. unfold bind. rewrite H, H', add_events_app. reflexivity.
  - exists Fault, evs. split; [exact F|]. intros st. unfold bind. now rewrite H.
  - exists (Exited c), evs. split; [exact F|]. intros st. unfold bind. now rewrite H.
  - exists OutOfFuel, evs. split; [exact F|]. intros st. unfold bind. now rewrite H.
Qed.

Lemma uniform_if {A} (b : bool) (m1 m2 : M A) :
  uniform P m1 -> uniform P m2 -> uniform P (if b then m1 else m2).
Proof. destruct b; auto. Qed.

End Uniform.

Section UniformScanner.

Variable w : World.
Variable data : list byte.
Variable count : Z.
Variable pid : Z.

Lemma uniform_read off : uniform scanner_event (read data off).
Proof.
  unfold read. apply uniform_bind; [apply uniform_emit; exact I|]. intros _.
  destruct (off <? 0); [apply uniform_fault|].
  destruct (nth_error data (Z.to_nat off)); [apply uniform_ret | apply uniform_fault].
Qed.

Lemma uniform_marker_at i : uniform scanner_event (marker_at data i).
Proof.
  unfold marker_at.
  repeat first [ apply uniform_read | apply uniform_ret | apply uniform_if
               | apply uniform_bind; [|intros ?] ].
Qed.

Lemma uniform_find_terminator fuel : forall k,
  uniform scanner_event (find_terminator data count fuel k).
Proof.
  induction fuel as [|fuel IH]; intros k.
  - apply uniform_out_of_fuel.
  - rewrite find_terminator_S.
    repeat first [ apply uniform_read | apply uniform_ret | apply IH
                 | apply uniform_if | apply uniform_bind; [|intros ?] ].
Qed.

Lemma uniform_memcpy n : forall src, uniform scanner_event (memcpy data src n).
Proof.
  induction n as [|n IH]; intros src; cbn [memcpy].
  - apply uniform_ret.
  - apply uniform_bind; [apply uniform_emit; exact I|]. intros _.
    destruct (src <? 0); [apply uniform_fault|].
    destruct (nth_error data (Z.to_nat src)); [|apply uniform_fault].
    apply uniform_bind; [apply IH|]. intros ?. apply uniform_ret.
Qed.

Lemma scanner_event_log_events title :
  Forall scanner_event (log_events w pid title).
Proof.
  unfold log_events. constructor; [exact I|].
  destruct (sys_open w >=? 0); [|constructor].
  destruct (_ && _); repeat constructor.
Qed.

Lemma uniform_log_title title : uniform scanner_event (log_title w pid title).
Proof.
  exists (Ret tt), (log_events w pid title).
  split; [apply scanner_event_log_events|].
  intros st. apply log_title_events.
Qed.

Lemma uniform_handle_candidate i :
  uniform scanner_event (handle_candidate w data count pid i).
Proof.
  unfold handle_candidate.
  apply uniform_bind; [apply uniform_find_terminator|]. intros e.
  apply uniform_if; [|apply uniform_ret].
  apply uniform_bind; [apply uniform_memcpy|]. intros t.
  apply uniform_if; [apply uniform_log_title | apply uniform_ret].
Qed.

Lemma uniform_scan_body i : uniform scanner_event (scan_body w data count pid i).
Proof.
  unfold scan_body. apply uniform_bind; [apply uniform_marker_at|].
  intros b. apply uniform_if; [apply uniform_handle_candidate | apply uniform_ret].
Qed.

Lemma uniform_scan_loop fuel : forall i,
  uniform scanner_event (scan_loop w data count pid fuel i).
Proof.
  induction fuel as [|fuel IH]; intros i.
  - apply uniform_out_of_fuel.
  - rewrite scan_loop_S. apply uniform_if; [|apply uniform_ret].
    apply uniform_bind; [apply uniform_scan_body|]. intros _. apply IH.
Qed.

Lemma uniform_scan_for_title_sequences :
  uniform scanner_event (scan_for_title_sequences w data count pid).
Proof.
  unfold scan_for_title_sequences.
  apply uniform_bind; [apply uniform_emit; exact I|]. intros _.
  apply uniform_scan_loop.
Qed.

End UniformScanner.

(** One call of the shim from a state in which the resolution succeeds:
    apart from the one-time lookup, its outcome and its events are a
    function of the arguments and of the world. *)
Lemma write_run w fd buf count :
  exists o evs,
    Forall after_forward evs
    /\ forall st, resolvable w st ->
         write w fd buf count st
         = (o, add_events (resolution_events st ++ EvForward fd buf count :: evs)
                 (resolved st)).
Proof.
  destruct (triggers w fd buf count) eqn:T.
  - destruct (is_enabled (sys_getenv w)) eqn:E.
    + destruct buf as [data|]; [|discriminate].
      destruct (uniform_scan_for_title_sequences w data
                  (size_t (sys_write w fd (Some data) count)) (sys_getpid w))
        as [o [evs [F H]]].
      exists (match o with
              | Ret _ => Ret (sys_write w fd (Some data) count)
              | Fault => Fault
              | Exited c => Exited c
              | OutOfFuel => OutOfFuel
              end), (EvGetenv :: evs).
      split.
      * constructor; [left; reflexivity|].
        eapply Forall_impl; [|exact F]. intros e He. right. exact He.
      * intros st R. rewrite write_enabled by assumption.
        unfold bind. rewrite H.
        destruct o; unfold ret; rewrite add_events_app, <- app_assoc; reflexivity.
    + exists (Ret (sys_write w fd buf count)), [EvGetenv]. split.
      * repeat constructor.
      * intros st R. now rewrite write_disabled.
  - exists (Ret (sys_write w fd buf count)), []. split; [constructor|].
    intros st R. now rewrite write_not_triggered.
Qed.

(** ** Further properties *)

(** X1: on a triggered, enabled call of which the original accepted at
    least four bytes, all inside the buffer, the shim returns what the
    original returned and the scanner read no offset at or beyond the
    accepted count. *)
Theorem accepted_bytes_only w fd data count st :
  resolvable w st ->
  triggers w fd (Some data) count = true ->
  sys_getenv w = Some (bytes "1") ->
  4 <= sys_write w fd (Some data) count <= Z.of_nat (List.length data) ->
  sys_write w fd (Some data) count < 2 ^ 64 ->
  fst (write w fd (Some data) count st) = Ret (sys_write w fd (Some data) count)
  /\ Forall (fun off => 0 <= off < sys_write w fd (Some data) count)
       (reads (new_events (write w fd (Some data) count) st)).
Proof.
  intros R T E Hn Hmax. apply is_enabled_iff in E.
  destruct (write_scanned w fd data count st R T E Hn Hmax) as [evs [Hw [Hr _]]].
  rewrite (trace_write_events _ _ _ _ _ _ _ Hw), Hw.
  split; [reflexivity|].
  rewrite reads_app, reads_resolution_events. simpl. exact Hr.
Qed.

Lemma accepted_bytes_only_witness :
  resolvable (demo_world toggle_on 40) initial_state
  /\ fst (write (demo_world toggle_on 40) STDOUT_FILENO (Some plain_buffer) 100
            initial_state) = Ret 40
  /\ Forall (fun off => 0 <= off < 40)
       (reads (new_events
                 (write (demo_world toggle_on 40) STDOUT_FILENO
                    (Some plain_buffer) 100) initial_state)).
Proof.
  split; [reflexivity|].
  apply (accepted_bytes_only (demo_world toggle_on 40) STDOUT_FILENO plain_buffer
           100 initial_state).
  - reflexivity.
  - reflexivity.
  - reflexivity.
  - simpl. lia.
  - simpl. lia.
Defined.

(** X2: on a triggered, enabled call of which the original accepted one,
    two or three bytes, the loop bound [count - 4] wraps around and the scan
    runs off the end of the buffer: the call does not return. *)
Theorem short_accept_faults w fd data count st :
  resolvable w st ->
  triggers w fd (Some data) count = true ->
  sys_getenv w = Some (bytes "1") ->
  sys_write w fd (Some data) count < 4 ->
  Z.of_nat (List.length data) < 2 ^ 64 - 4 ->
  fst (write w fd (Some data) count st) = Fault
  /\ Z.of_nat (List.length data)
     < size_t (sys_write w fd (Some data) count - 4).
Proof.
  intros R T E Hn Hlen. split.
  - apply write_short_faults; try assumption. now apply is_enabled_iff.
  - assert (Hpos : 0 < sys_write w fd (Some data) count).
    { unfold triggers in T. apply andb_true_iff in T. destruct T as [_ T].
      now apply Z.gtb_lt in T. }
    set (n := sys_write w fd (Some data) count) in *.
    unfold size_t, SIZE_WIDTH.
    replace (n - 4) with ((n - 4 + 2 ^ 64) + (-1) * 2 ^ 64) by ring.
    rewrite Z.mod_add by lia. rewrite Z.mod_small; lia.
Qed.

Lemma short_accept_faults_witness :
  resolvable (demo_world toggle_on 2) initial_state
  /\ fst (write (demo_world toggle_on 2) STDERR_FILENO (Some hello_buffer) 10
            initial_state) = Fault.
Proof.
  split; [reflexivity|].
  apply (short_accept_faults (demo_world toggle_on 2) STDERR_FILENO hello_buffer
           10 initial_state).
  - reflexivity.
  - reflexivity.
  - reflexivity.
  - simpl. lia.
  - simpl. lia.
Defined.

Lemma offsets_In n : forall lo j,
  In j (offsets lo n) <-> lo <= j < lo + Z.of_nat n.
Proof.
  induction n as [|n IH]; intros lo j; simpl.
  - split; [contradiction | lia].
  - rewrite IH. lia.
Qed.

Lemma candidate_title_valid data count i t :
  count <= Z.of_nat (List.length data) ->
  0 <= i -> i + 4 <= count ->
  candidate_title data count i = Some t -> valid_title t.
Proof.
  intros Hle Hi Hc. unfold candidate_title.
  destruct (first_terminator_char data count (Z.to_nat (count - (i + 4))) (i + 4)
              ltac:(lia) ltac:(lia)) as [H1 _].
  set (e := first_terminator data count (Z.to_nat (count - (i + 4))) (i + 4)) in *.
  destruct ((e <? count) && (e >? i + 4)) eqn:Etest; [|discriminate].
  apply andb_true_iff in Etest. destruct Etest as [E1 E2].
  apply Z.ltb_lt in E1. apply Z.gtb_lt in E2.
  destruct (validate (retained data (i + 4) e)) eqn:V; [|discriminate].
  intros H. injection H as <-.
  assert (L : (1 <= List.length (retained data (i + 4) e) <= 200)%nat).
  { unfold retained. rewrite length_firstn, length_skipn.
    unfold TITLE_MAX. lia. }
  split; [|split].
  - intros N. rewrite N in L. simpl in L. lia.
  - lia.
  - now apply validate_printable.
Qed.

Lemma scan_titles_valid data count :
  count <= Z.of_nat (List.length data) ->
  Forall valid_title (scan_titles data count).
Proof.
  intros Hle. apply Forall_forall. intros t Ht.
  unfold scan_titles in Ht. apply in_flat_map in Ht.
  destruct Ht as [i [Hi Ht]]. apply offsets_In in Hi.
  unfold titles_at in Ht. destruct (is_marker data i); [|contradiction].
  destruct (candidate_title data count i) as [t'|] eqn:C; [|contradiction].
  destruct Ht as [<-|[]].
  apply (candidate_title_valid data count i); (assumption || lia).
Qed.

(** X3: on at least four bytes that lie inside the buffer the scanner
    returns, and its calls are one run of the record writer for each title
    of [scan_titles], in the order of the offsets; every such title is
    non-empty, at most 200 bytes long and printable. *)
Theorem scanner_logs_valid_titles w data count pid st :
  count <= Z.of_nat (List.length data) -> count < 2 ^ 64 -> 4 <= count ->
  fst (scan_for_title_sequences w data count pid st) = Ret tt
  /\ calls (new_events (scan_for_title_sequences w data count pid) st)
     = EvScan count :: flat_map (log_events w pid) (scan_titles data count)
  /\ Forall valid_title (scan_titles data count).
Proof.
  intros Hle Hmax H4.
  destruct (scan_for_title_sequences_spec w data count pid Hle Hmax st H4)
    as [evs [E [_ C]]].
  rewrite (new_events_add _ _ _ _ E), E.
  split; [reflexivity|]. split.
  - simpl. now rewrite C.
  - now apply scan_titles_valid.
Qed.

Lemma scanner_logs_valid_titles_witness :
  scan_titles nested_buffer 210 = [repeat x61 200; bytes "b"]
  /\ fst (scan_for_title_sequences (demo_world toggle_on 210) nested_buffer 210
            4242 (resolved initial_state)) = Ret tt
  /\ Forall valid_title (scan_titles nested_buffer 210).
Proof.
  split; [reflexivity|].
  pose proof (scanner_logs_valid_titles (demo_world toggle_on 210) nested_buffer
                210 4242 (resolved initial_state)) as H.
  destruct H as [H1 [_ H3]].
  - simpl. lia.
  - lia.
  - lia.
  - split; assumption.
Defined.

(** X6: a call from a state in which the resolution succeeds forwards
    exactly once, with the caller's arguments, before it looks at the
    environment or scans; it leaves the original resolved, so that no later
    call looks the symbol up again, whatever [dlsym] would then answer. *)
Theorem write_forwards_once_and_resolves w fd buf count st :
  resolvable w st ->
  (exists rest,
      new_events (write w fd buf count) st
      = resolution_events st ++ EvForward fd buf count :: rest
      /\ existsb is_forward rest = false
      /\ existsb is_dlsym rest = false)
  /\ init_once (snd (write w fd buf count st)) = true
  /\ original_write (snd (write w fd buf count st)) = Some libc_write
  /\ (forall w' fd' buf' count',
        existsb is_dlsym
          (new_events (write w' fd' buf' count') (snd (write w fd buf count st)))
        = false).
Proof.
  intros R.
  assert (Hclass : forall evs, Forall after_forward evs ->
            existsb is_forward evs = false /\ existsb is_dlsym evs = false).
  { induction 1 as [|e evs He _ [IH1 IH2]]; [auto|].
    simpl. rewrite IH1, IH2.
    destruct He as [->|He]; [auto|]. destruct e; simpl in *; auto; contradiction. }
  destruct (write_run w fd buf count) as [o [evs [F H]]].
  rewrite (trace_write_events _ _ _ _ _ _ _ (H st R)), (H st R).
  split; [|split; [reflexivity | split; [reflexivity|]]].
  - exists evs. destruct (Hclass evs F). auto.
  - intros w' fd' buf' count'.
    destruct (write_run w' fd' buf' count') as [o' [evs' [F' H']]].
    set (st' := snd (o, add_events (resolution_events st ++ EvForward fd buf count :: evs)
                          (resolved st))).
    assert (R' : resolvable w' st') by reflexivity.
    rewrite (trace_write_events _ _ _ _ _ _ _ (H' st' R')).
    simpl. destruct (Hclass evs' F') as [_ D]. exact D.
Qed.

Lemma write_forwards_once_and_resolves_witness :
  resolvable (demo_world toggle_on 10) initial_state
  /\ existsb is_dlsym
       (new_events (write unlinked_world STDOUT_FILENO (Some hello_buffer) 10)
          (snd (write (demo_world toggle_on 10) STDOUT_FILENO (Some hello_buffer) 10
                  initial_state))) = false.
Proof.
  split; [reflexivity|].
  apply (write_forwards_once_and_resolves (demo_world toggle_on 10) STDOUT_FILENO
           (Some hello_buffer) 10 initial_state).
  reflexivity.
Defined.

(** X7: a call on a descriptor other than stdout and stderr, with a NULL
    buffer, with a zero count, or of which the original accepted nothing (or
    failed) is forwarded and returned, and that is all: the environment is
    not consulted and nothing is read or logged. *)
Theorem untriggered_call_only_forwards w fd buf count st :
  resolvable w st ->
  (fd <> STDOUT_FILENO /\ fd <> STDERR_FILENO) \/ buf = None \/ count <= 0
  \/ sys_write w fd buf count <= 0 ->
  write w fd buf count st
  = (Ret (sys_write w fd buf count),
     add_events (resolution_events st ++ [EvForward fd buf count]) (resolved st)).
Proof.
  intros R H. apply write_not_triggered; [exact R|].
  unfold triggers. destruct buf as [data|]; [|reflexivity].
  destruct H as [[H1 H2] | [H | [H | H]]].
  - apply Z.eqb_neq in H1, H2. now rewrite H1, H2.
  - discriminate.
  - replace (count >? 0) with false
      by (symmetry; rewrite Z.gtb_ltb; apply Z.ltb_ge; lia).
    now rewrite andb_false_r.
  - replace (sys_write w fd (Some data) count >? 0) with false
      by (symmetry; rewrite Z.gtb_ltb; apply Z.ltb_ge; lia).
    now rewrite andb_false_r.
Qed.

Lemma untriggered_call_only_forwards_witness :
  resolvable (demo_world toggle_on 10) initial_state
  /\ write (demo_world toggle_on 10) 3 (Some hello_buffer) 10 initial_state
     = (Ret 10,
        add_events [EvDlsym; EvForward 3 (Some hello_buffer) 10]
          (resolved initial_state)).
Proof.
  split; [reflexivity|].
  apply (untriggered_call_only_forwards (demo_world toggle_on 10) 3
           (Some hello_buffer) 10 initial_state).
  - reflexivity.
  - left. unfold STDOUT_FILENO, STDERR_FILENO. lia.
Defined.

(** X8: the load-time constructor resolves the original at once when the
    toggle is "1", so that no call looks it up afterwards; with any other
    toggle it only reads the environment and leaves the lookup to the first
    call. *)
Theorem constructor_resolves_iff_enabled w st :
  init_once st = false ->
  (sys_getenv w = Some (bytes "1") -> sys_dlsym w = Some libc_write ->
   init_title_interceptor w st
   = (Ret tt, add_events [EvGetenv; EvDlsym] (resolved st))
   /\ forall w' fd buf count,
        existsb is_dlsym
          (new_events (write w' fd buf count)
             (snd (init_title_interceptor w st))) = false)
  /\ (sys_getenv w <> Some (bytes "1") ->
      init_title_interceptor w st = (Ret tt, add_events [EvGetenv] st)
      /\ forall w' fd buf count,
           sys_dlsym w' = Some libc_write ->
           exists rest,
             new_events (write w' fd buf count)
               (snd (init_title_interceptor w st))
             = EvDlsym :: EvForward fd buf count :: rest).
Proof.
  intros I. split.
  - intros E D.
    assert (Hc : init_title_interceptor w st
                 = (Ret tt, add_events [EvGetenv; EvDlsym] (resolved st))).
    { unfold init_title_interceptor, getenv_toggle.
      unfold bind at 1, bind at 1, emit, ret. rewrite E. simpl.
      unfold pthread_once, init_original_write, bind, emit, ret, add_events,
        resolved. simpl. rewrite I, D. simpl. rewrite <- app_assoc. reflexivity. }
    split; [exact Hc|].
    intros w' fd buf count. rewrite Hc. simpl.
    destruct (write_run w' fd buf count) as [o [evs [F H]]].
    set (st' := add_events [EvGetenv; EvDlsym] (resolved st)).
    assert (R' : resolvable w' st') by reflexivity.
    rewrite (trace_write_events _ _ _ _ _ _ _ (H st' R')). simpl.
    clear - F. induction F as [|e evs He _ IH]; [reflexivity|].
    simpl. rewrite IH.
    destruct He as [->|He]; [reflexivity|]. destruct e; simpl in *; auto; contradiction.
  - intros N.
    assert (Dis : is_enabled (sys_getenv w) = false).
    { destruct (is_enabled (sys_getenv w)) eqn:D; [|reflexivity].
      apply is_enabled_iff in D. contradiction. }
    assert (Hc : init_title_interceptor w st = (Ret tt, add_events [EvGetenv] st)).
    { unfold init_title_interceptor, getenv_toggle.
      unfold bind at 1, bind at 1, emit, ret. now rewrite Dis. }
    split; [exact Hc|].
    intros w' fd buf count D. rewrite Hc. simpl.
    destruct (write_run w' fd buf count) as [o [evs [F H]]].
    set (st' := add_events [EvGetenv] st).
    assert (R' : resolvable w' st').
    { unfold resolvable, st'. simpl. now rewrite I. }
    rewrite (trace_write_events _ _ _ _ _ _ _ (H st' R')).
    unfold resolution_events, st'. simpl. rewrite I. simpl. eauto.
Qed.

Lemma constructor_resolves_iff_enabled_witness :
  init_once initial_state = false
  /\ init_title_interceptor (demo_world toggle_on 0) initial_state
     = (Ret tt, add_events [EvGetenv; EvDlsym] (resolved initial_state))
  /\ init_title_interceptor (demo_world None 0) initial_state
     = (Ret tt, add_events [EvGetenv] initial_state).
Proof.
  split; [reflexivity|]. split.
  - apply (constructor_resolves_iff_enabled (demo_world toggle_on 0) initial_state);
      reflexivity.
  - apply (constructor_resolves_iff_enabled (demo_world None 0) initial_state);
      [reflexivity | discriminate].
Defined.

(** X9: the validation loop accepts a title exactly when every byte is in
    32..126.  The inner test that lets spaces through changes nothing (32 is
    inside the range), and bytes from 0x80 up, negative as [char], are
    rejected like control bytes. *)
Theorem validate_is_range_check title :
  validate title
  = forallb (fun b => (32 <=? uchar b) && (uchar b <=? 126)) title.
Proof.
  induction title as [|c t IH]; [reflexivity|].
  cbn [validate forallb]. rewrite IH. unfold schar, SPACE.
  pose proof (uchar_range c) as Hc.
  destruct (128 <=? uchar c) eqn:E128;
    [apply Z.leb_le in E128 | apply Z.leb_gt in E128].
  - replace (uchar c - 256 <? 32) with true by (symmetry; apply Z.ltb_lt; lia).
    replace (uchar c - 256 =? 32) with false by (symmetry; apply Z.eqb_neq; lia).
    replace (uchar c <=? 126) with false by (symmetry; apply Z.leb_gt; lia).
    cbn. now rewrite andb_false_r.
  - destruct (uchar c <? 32) eqn:E32;
      [apply Z.ltb_lt in E32 | apply Z.ltb_ge in E32].
    + replace (uchar c =? 32) with false by (symmetry; apply Z.eqb_neq; lia).
      replace (32 <=? uchar c) with false by (symmetry; apply Z.leb_gt; lia).
      reflexivity.
    + replace (32 <=? uchar c) with true by (symmetry; apply Z.leb_le; lia).
      destruct (uchar c >? 126) eqn:E126.
      * apply Z.gtb_lt in E126.
        replace (uchar c =? 32) with false by (symmetry; apply Z.eqb_neq; lia).
        replace (uchar c <=? 126) with false by (symmetry; apply Z.leb_gt; lia).
        reflexivity.
      * rewrite Z.gtb_ltb in E126. apply Z.ltb_ge in E126.
        replace (uchar c <=? 126) with true by (symmetry; apply Z.leb_le; lia).
        reflexivity.
Qed.

Lemma In_calls e tr :
  In e tr -> (forall off, e <> EvRead off) -> In e (calls tr).
Proof.
  intros H N. unfold calls. apply filter_In. split; [exact H|].
  destruct e; try reflexivity. exfalso. now apply (N off).
Qed.

(** X10: when the log file cannot be opened every record of the call is
    dropped without a trace: nothing is written, no descriptor is closed,
    and the call returns what the original returned. *)
Theorem unopenable_log_drops_records w fd data count st :
  resolvable w st ->
  triggers w fd (Some data) count = true ->
  sys_getenv w = Some (bytes "1") ->
  4 <= sys_write w fd (Some data) count <= Z.of_nat (List.length data) ->
  sys_write w fd (Some data) count < 2 ^ 64 ->
  sys_open w < 0 ->
  fst (write w fd (Some data) count st) = Ret (sys_write w fd (Some data) count)
  /\ appended (new_events (write w fd (Some data) count) st) = []
  /\ forall log_fd,
       ~ In (EvCloseLog log_fd) (new_events (write w fd (Some data) count) st).
Proof.
  intros R T E Hn Hmax Ho. apply is_enabled_iff in E.
  destruct (write_scanned w fd data count st R T E Hn Hmax) as [evs [Hw [_ C]]].
  rewrite (trace_write_events _ _ _ _ _ _ _ Hw), Hw.
  assert (Hlog : forall t, log_events w (sys_getpid w) t = [EvOpenLog]).
  { intros t. unfold log_events.
    replace (sys_open w >=? 0) with false; [reflexivity|].
    symmetry. rewrite Z.geb_leb. apply Z.leb_gt. lia. }
  assert (Hcalls : forall e, In e (calls evs) -> e = EvOpenLog).
  { intros e He. rewrite C in He. apply in_flat_map in He.
    destruct He as [t [_ He]]. rewrite Hlog in He.
    destruct He as [<-|[]]. reflexivity. }
  split; [reflexivity|]. split.
  - rewrite appended_app, appended_resolution_events. simpl.
    rewrite <- appended_calls.
    destruct (calls evs) as [|e l] eqn:L; [reflexivity|].
    assert (forall e', In e' (e :: l) -> e' = EvOpenLog) as Hall by exact Hcalls.
    clear - Hall. induction (e :: l) as [|e' l' IH]; [reflexivity|].
    rewrite (Hall e' (or_introl eq_refl)). simpl. apply IH.
    intros e'' H. apply Hall. now right.
  - intros log_fd Hin. apply in_app_or in Hin. destruct Hin as [Hin|Hin].
    + unfold resolution_events in Hin. destruct (init_once st); simpl in Hin;
        [contradiction | destruct Hin as [Hin|[]]; discriminate].
    + simpl in Hin. destruct Hin as [Hin|[Hin|[Hin|Hin]]]; try discriminate.
      assert (Hc : EvCloseLog log_fd = EvOpenLog);
        [|discriminate].
      apply Hcalls. apply In_calls; [exact Hin | discriminate].
Qed.

Lemma unopenable_log_drops_records_witness :
  resolvable
    {| sys_getenv := toggle_on; sys_dlsym := Some libc_write;
       sys_write := fun _ _ _ => 10; sys_getpid := 4242;
       sys_getcwd := fun _ => None; sys_readlink := fun _ => None;
       sys_timestamp := bytes "2024-01-01 10:00:00"; sys_open := -1 |}
    initial_state
  /\ appended
       (new_events
          (write
             {| sys_getenv := toggle_on; sys_dlsym := Some libc_write;
                sys_write := fun _ _ _ => 10; sys_getpid := 4242;
                sys_getcwd := fun _ => None; sys_readlink := fun _ => None;
                sys_timestamp := bytes "2024-01-01 10:00:00"; sys_open := -1 |}
             STDOUT_FILENO (Some hello_buffer) 10) initial_state) = [].
Proof.
  split; [reflexivity|].
  apply (unopenable_log_drops_records _ STDOUT_FILENO hello_buffer 10 initial_state).
  - reflexivity.
  - reflexivity.
  - reflexivity.
  - simpl. lia.
  - simpl. lia.
  - simpl. lia.
Defined.

(** X11: for a printable title, when the log opens and the line fits, the
    record writer hands exactly one line to the original primitive:
    timestamp, pid in decimal, working directory and title, separated by
    [|] and ended by a newline.  The directory is the one [getcwd] gives,
    else the one read from /proc/self/cwd, else the text /unknown. *)
Theorem record_line_format w pid title st :
  0 <= sys_open w ->
  Forall printable title ->
  Z.of_nat (List.length
    (format_entry (sys_timestamp w) pid
       (fst (get_current_working_directory w PATH_MAX)) title)) < LOG_ENTRY_SIZE ->
  appended (new_events (log_title w pid title) st)
  = [sys_timestamp w ++ [x7c] ++ decimal pid ++ [x7c]
     ++ match sys_getcwd w 4096 with
        | Some p => p
        | None => match sys_readlink w 4095 with
                  | Some p => p
                  | None => bytes "/unknown"
                  end
        end
     ++ [x7c] ++ title ++ [x0a]].
Proof.
  intros Ho Hp Hfit.
  rewrite (new_events_add _ _ _ _ (log_title_events w pid title st)).
  rewrite appended_log_events by assumption.
  unfold format_entry. rewrite c_str_printable by assumption.
  unfold get_current_working_directory, PATH_MAX.
  change (4096 - 1) with 4095.
  destruct (sys_getcwd w 4096); [reflexivity|].
  destruct (sys_readlink w 4095); reflexivity.
Qed.

Lemma record_line_format_witness :
  appended
    (new_events
       (log_title
          {| sys_getenv := toggle_on; sys_dlsym := Some libc_write;
             sys_write := fun _ _ _ => 10; sys_getpid := 4242;
             sys_getcwd := fun _ => None; sys_readlink := fun _ => None;
             sys_timestamp := bytes "2024-01-01 10:00:00"; sys_open := 3 |}
          4242 (bytes "a|b")) (resolved initial_state))
  = [bytes "2024-01-01 10:00:00|4242|/unknown|a|b" ++ [x0a]].
Proof.
  apply (record_line_format
           {| sys_getenv := toggle_on; sys_dlsym := Some libc_write;
              sys_write := fun _ _ _ => 10; sys_getpid := 4242;
              sys_getcwd := fun _ => None; sys_readlink := fun _ => None;
              sys_timestamp := bytes "2024-01-01 10:00:00"; sys_open := 3 |}
           4242 (bytes "a|b") (resolved initial_state)).
  - simpl. lia.
  - apply validate_printable. reflexivity.
  - vm_compute. reflexivity.
Defined.

(** ** Buffers made of whole sequences *)

Lemma offsets_app a : forall lo b,
  offsets lo (a + b) = offsets lo a ++ offsets (lo + Z.of_nat a) b.
Proof.
  induction a as [|a IH]; intros lo b.
  - simpl. now rewrite Z.add_0_r.
  - cbn [Nat.add offsets List.app]. rewrite IH. do 3 f_equal. lia.
Qed.

Lemma flat_map_nil {A B} (f : A -> list B) l :
  (forall x, In x l -> f x = []) -> flat_map f l = [].
Proof.
  induction l as [|x l IH]; intros H; [reflexivity|].
  simpl. rewrite (H x (or_introl eq_refl)). apply IH.
  intros y Hy. apply H. now right.
Qed.

Section Segment.

Variables pre s post : list byte.

Lemma get_segment k :
  (k < List.length s)%nat ->
  get (pre ++ s ++ post) (Z.of_nat (List.length pre) + Z.of_nat k)
  = uchar (nth k s x00).
Proof.
  intros Hk. unfold get.
  replace (Z.to_nat (Z.of_nat (List.length pre) + Z.of_nat k))
    with (List.length pre + k)%nat by lia.
  rewrite app_nth2_plus, app_nth1 by assumption. reflexivity.
Qed.

(** No marker starts at a byte that is not ESC, nor at an ESC that is
    followed by something else than a closing bracket. *)
Lemma is_marker_segment k :
  (k < List.length s)%nat ->
  uchar (nth k s x00) <> ESC
  \/ ((S k < List.length s)%nat /\ uchar (nth (S k) s x00) <> RBRACKET) ->
  is_marker (pre ++ s ++ post) (Z.of_nat (List.length pre) + Z.of_nat k) = false.
Proof.
  intros Hk [H | [Hk' H]].
  - apply is_marker_needs_esc. now rewrite get_segment.
  - unfold is_marker.
    replace (Z.of_nat (List.length pre) + Z.of_nat k + 1)
      with (Z.of_nat (List.length pre) + Z.of_nat (S k)) by lia.
    rewrite (get_segment (S k)) by assumption.
    replace (uchar (nth (S k) s x00) =? RBRACKET) with false
      by (symmetry; now apply Z.eqb_neq).
    now rewrite andb_false_r.
Qed.

End Segment.

Lemma title_segment_no_marker d p t k :
  d = x30 \/ d = x32 -> Forall printable p ->
  (1 <= k < List.length (render_item (Title d p t)))%nat ->
  uchar (nth k (render_item (Title d p t)) x00) <> ESC
  \/ ((S k < List.length (render_item (Title d p t)))%nat
      /\ uchar (nth (S k) (render_item (Title d p t)) x00) <> RBRACKET).
Proof.
  intros Hd Hp Hk. cbn [render_item] in *.
  rewrite !length_app in *. cbn [List.length] in Hk.
  destruct k as [|[|[|[|k]]]]; try lia.
  - left. vm_compute. discriminate.
  - left. destruct Hd as [-> | ->]; vm_compute; discriminate.
  - left. vm_compute. discriminate.
  - cbn [List.app nth].
    destruct (Nat.lt_ge_cases k (List.length p)) as [L|L].
    + left. rewrite app_nth1 by assumption.
      rewrite Forall_nth in Hp. specialize (Hp k x00 L).
      unfold printable, ESC in *. lia.
    + rewrite app_nth2 by assumption.
      destruct t; cbn [render_terminator List.length] in *.
      * left. assert (k - List.length p = 0)%nat as -> by lia.
        vm_compute. discriminate.
      * assert (k - List.length p = 0 \/ k - List.length p = 1)%nat as [E|E] by lia.
        -- right. split; [cbn [List.length]; lia|].
           rewrite app_nth2 by lia.
           replace (S k - List.length p)%nat with 1%nat by lia.
           vm_compute. discriminate.
        -- left. rewrite E. vm_compute. discriminate.
Qed.

Lemma title_segment_yields pre d p t post :
  d = x30 \/ d = x32 -> p <> [] -> Forall printable p ->
  titles_at (pre ++ render_item (Title d p t) ++ post)
    (Z.of_nat (List.length (pre ++ render_item (Title d p t) ++ post)))
    (Z.of_nat (List.length pre))
  = [firstn 200 p].
Proof.
  intros Hd Hne Hp.
  set (s := render_item (Title d p t)).
  set (data := pre ++ s ++ post).
  set (count := Z.of_nat (List.length data)).
  set (i := Z.of_nat (List.length pre)).
  assert (Hlen : List.length s
                 = (4 + List.length p + List.length (render_terminator t))%nat).
  { unfold s. cbn [render_item]. rewrite !length_app. cbn [List.length]. lia. }
  assert (Hterm : (1 <= List.length (render_terminator t) <= 2)%nat)
    by (destruct t; simpl; lia).
  assert (Hcount : count = i + Z.of_nat (List.length s)
                           + Z.of_nat (List.length post)).
  { unfold count, data, i. rewrite !length_app. lia. }
  assert (Hp1 : (1 <= List.length p)%nat).
  { destruct p; [contradiction | simpl; lia]. }
  assert (G : forall k, (k < List.length s)%nat ->
                get data (i + Z.of_nat k) = uchar (nth k s x00)).
  { intros k Hk. apply get_segment. exact Hk. }
  assert (Gp : forall j, (j < List.length p)%nat ->
                 get data (i + 4 + Z.of_nat j) = uchar (nth j p x00)).
  { intros j Hj. replace (i + 4 + Z.of_nat j) with (i + Z.of_nat (4 + j)) by lia.
    rewrite G by lia. unfold s. cbn [render_item List.app Nat.add nth].
    now rewrite app_nth1. }
  assert (Gt : forall j, (j < List.length (render_terminator t))%nat ->
                 get data (i + 4 + Z.of_nat (List.length p) + Z.of_nat j)
                 = uchar (nth j (render_terminator t) x00)).
  { intros j Hj.
    replace (i + 4 + Z.of_nat (List.length p) + Z.of_nat j)
      with (i + Z.of_nat (4 + (List.length p + j))) by lia.
    rewrite G by lia. unfold s. cbn [render_item List.app Nat.add nth].
    rewrite app_nth2_plus. reflexivity. }
  assert (Hmark : is_marker data i = true).
  { unfold is_marker.
    replace i with (i + Z.of_nat 0) at 1 by lia.
    replace (i + 1) with (i + Z.of_nat 1) by lia.
    replace (i + 2) with (i + Z.of_nat 2) by lia.
    replace (i + 3) with (i + Z.of_nat 3) by lia.
    rewrite !G by lia. unfold s. cbn [render_item List.app nth].
    destruct Hd as [-> | ->]; reflexivity. }
  assert (Hterminated :
            terminated_at data count (i + 4) (i + 4 + Z.of_nat (List.length p))).
  { split; [lia|]. split.
    - unfold terminator_at.
      replace (i + 4 + Z.of_nat (List.length p))
        with (i + 4 + Z.of_nat (List.length p) + Z.of_nat 0) at 1 3 by lia.
      replace (i + 4 + Z.of_nat (List.length p) + 1)
        with (i + 4 + Z.of_nat (List.length p) + Z.of_nat 1) by lia.
      destruct t; cbn [render_terminator List.length] in *.
      + rewrite Gt by (simpl; lia). reflexivity.
      + rewrite !Gt by (simpl; lia).
        replace (i + 4 + Z.of_nat (List.length p) <? count - 1) with true
          by (symmetry; apply Z.ltb_lt; lia).
        reflexivity.
    - intros k Hk. unfold terminator_at.
      replace k with (i + 4 + Z.of_nat (Z.to_nat (k - (i + 4)))) by lia.
      rewrite Gp by lia.
      assert (Hpr : printable (nth (Z.to_nat (k - (i + 4))) p x00)).
      { rewrite Forall_nth in Hp. apply Hp. lia. }
      unfold printable in Hpr.
      replace (uchar (nth (Z.to_nat (k - (i + 4))) p x00) =? BEL) with false
        by (symmetry; apply Z.eqb_neq; unfold BEL; lia).
      replace (uchar (nth (Z.to_nat (k - (i + 4))) p x00) =? ESC) with false
        by (symmetry; apply Z.eqb_neq; unfold ESC; lia).
      now rewrite andb_false_r. }
  assert (Hpayload : payload data (i + 4) (i + 4 + Z.of_nat (List.length p)) = p).
  { unfold payload, data, s, i. cbn [render_item].
    replace (Z.to_nat (Z.of_nat (List.length pre) + 4 + Z.of_nat (List.length p)
                       - (Z.of_nat (List.length pre) + 4)))
      with (List.length p) by lia.
    replace (Z.to_nat (Z.of_nat (List.length pre) + 4))
      with (List.length (pre ++ [x1b; x5d; d; x3b])) by (rewrite length_app; simpl; lia).
    replace (pre ++ ([x1b; x5d; d; x3b] ++ p ++ render_terminator t) ++ post)
      with ((pre ++ [x1b; x5d; d; x3b]) ++ p ++ render_terminator t ++ post)
      by (rewrite <- !app_assoc; reflexivity).
    rewrite skipn_app, skipn_all, Nat.sub_diag. cbn [skipn List.app].
    rewrite firstn_app, firstn_all, Nat.sub_diag. cbn [firstn].
    apply app_nil_r. }
  unfold titles_at. fold data count i. rewrite Hmark.
  rewrite (candidate_title_yielded data count i (i + 4 + Z.of_nat (List.length p)));
    try assumption; try lia.
  - rewrite retained_payload, Hpayload. reflexivity.
  - rewrite retained_payload, Hpayload. now apply Forall_firstn_of.
Qed.

Lemma render_cons it rest : render (it :: rest) = render_item it ++ render rest.
Proof. reflexivity. Qed.

Lemma item_length_title d p t :
  p <> [] -> (6 <= List.length (render_item (Title d p t)))%nat.
Proof.
  intros H. cbn [render_item]. rewrite !length_app.
  destruct p; [contradiction|]. destruct t; simpl; lia.
Qed.

(** The offsets the loop examines in a buffer [pre ++ render items], from
    the end of [pre] on, give the titles of [items]. *)
Lemma titles_of_rendered items :
  Forall well_formed_item items ->
  forall pre,
    flat_map
      (titles_at (pre ++ render items)
         (Z.of_nat (List.length (pre ++ render items))))
      (offsets (Z.of_nat (List.length pre)) (List.length (render items) - 4))
    = expected_titles items.
Proof.
  induction 1 as [|it rest Hit _ IH]; intros pre.
  - reflexivity.
  - rewrite render_cons.
    set (s := render_item it). set (R := render rest).
    set (data := pre ++ s ++ R).
    set (f := titles_at data (Z.of_nat (List.length data))).
    (* the offsets split into those inside [s] and those of the rest *)
    set (b := (List.length R - 4)%nat).
    set (a := ((List.length (s ++ R) - 4) - b)%nat).
    assert (Hab : (List.length (s ++ R) - 4 = a + b)%nat).
    { unfold a, b. rewrite length_app. lia. }
    assert (Ha : (a <= List.length s)%nat).
    { unfold a, b. rewrite length_app. lia. }
    rewrite Hab, offsets_app, flat_map_app.
    assert (Hrest : flat_map f (offsets (Z.of_nat (List.length pre) + Z.of_nat a) b)
                    = expected_titles rest).
    { specialize (IH (pre ++ s)).
      replace ((pre ++ s) ++ render rest) with data in IH
        by (unfold data, R; now rewrite app_assoc).
      fold R b f in IH.
      destruct b as [|b'] eqn:Eb.
      - simpl in *. exact IH.
      - assert (Has : a = List.length s).
        { unfold a. rewrite length_app. unfold b in Eb. lia. }
        replace (Z.of_nat (List.length (pre ++ s)))
          with (Z.of_nat (List.length pre) + Z.of_nat (List.length s)) in IH
          by (rewrite length_app; lia).
        rewrite Has. exact IH. }
    rewrite Hrest.
    assert (Hsilent : forall lo n, (1 <= lo)%nat -> (lo + n <= List.length s)%nat ->
              (forall k, (1 <= k < List.length s)%nat ->
                 uchar (nth k s x00) <> ESC
                 \/ ((S k < List.length s)%nat
                     /\ uchar (nth (S k) s x00) <> RBRACKET)) ->
              flat_map f (offsets (Z.of_nat (List.length pre) + Z.of_nat lo) n) = []).
    { intros lo n Hlo Hn Hk. apply flat_map_nil. intros j Hj.
      apply offsets_In in Hj.
      replace j with (Z.of_nat (List.length pre)
                      + Z.of_nat (Z.to_nat (j - Z.of_nat (List.length pre)))) by lia.
      unfold f. apply titles_at_unmarked.
      apply is_marker_segment; [lia|]. apply Hk. lia. }
    destruct it as [bs | d p t]; cbn [expected_titles flat_map List.app].
    + (* plain bytes: no offset starts a marker *)
      fold (expected_titles rest).
      replace (flat_map f (offsets (Z.of_nat (List.length pre)) a)) with (@nil (list byte));
        [reflexivity|].
      symmetry. apply flat_map_nil. intros j Hj. apply offsets_In in Hj.
      replace j with (Z.of_nat (List.length pre)
                      + Z.of_nat (Z.to_nat (j - Z.of_nat (List.length pre)))) by lia.
      unfold f. apply titles_at_unmarked.
      apply is_marker_segment; [lia|]. left.
      simpl in Hit. rewrite Forall_nth in Hit. apply Hit. unfold s in *. simpl in *. lia.
    + (* a title: its first offset yields it, the others nothing *)
      fold (expected_titles rest).
      destruct Hit as [Hd [Hne Hp]].
      pose proof (item_length_title d p t Hne) as H6. fold s in H6.
      assert (Ha1 : (1 <= a)%nat).
      { unfold a, b. rewrite length_app. lia. }
      replace a with (1 + (a - 1))%nat by lia.
      rewrite offsets_app, flat_map_app. cbn [offsets flat_map].
      rewrite app_nil_r.
      assert (Hfirst : f (Z.of_nat (List.length pre)) = [firstn 200 p]).
      { unfold f, data, s, R. now apply title_segment_yields. }
      rewrite Hfirst.
      rewrite (Hsilent 1%nat (a - 1)%nat); [reflexivity | lia | lia |].
      intros k Hk. apply title_segment_no_marker; assumption.
Qed.

Lemma scan_titles_rendered items :
  Forall well_formed_item items ->
  scan_titles (render items) (Z.of_nat (List.length (render items)))
  = expected_titles items.
Proof.
  intros H. unfold scan_titles.
  replace (Z.to_nat (Z.of_nat (List.length (render items)) - 4))
    with (List.length (render items) - 4)%nat by lia.
  exact (titles_of_rendered items H []).
Qed.

Lemma expected_titles_printable items :
  Forall well_formed_item items ->
  Forall (Forall printable) (expected_titles items).
Proof.
  induction 1 as [|it rest Hit _ IH]; [constructor|].
  destruct it as [bs | d p t]; cbn [expected_titles flat_map List.app]; [exact IH|].
  constructor; [|exact IH].
  destruct Hit as [_ [_ Hp]]. now apply Forall_firstn_of.
Qed.

Lemma appended_titles w pid titles :
  0 <= sys_open w ->
  Forall (Forall printable) titles ->
  Forall (fun t =>
            Z.of_nat (List.length
              (format_entry (sys_timestamp w) pid
                 (fst (get_current_working_directory w PATH_MAX)) t))
            < LOG_ENTRY_SIZE) titles ->
  appended (flat_map (log_events w pid) titles)
  = map (fun t => sys_timestamp w ++ [x7c] ++ decimal pid ++ [x7c]
                  ++ fst (get_current_working_directory w PATH_MAX) ++ [x7c]
                  ++ t ++ [x0a]) titles.
Proof.
  intros Ho Hp Hfit. induction titles as [|t titles IH]; [reflexivity|].
  inversion Hp; subst. inversion Hfit; subst.
  cbn [flat_map map]. rewrite appended_app, IH by assumption.
  rewrite appended_log_events by assumption.
  unfold format_entry. rewrite c_str_printable by assumption. reflexivity.
Qed.

(** X4: a buffer made of plain bytes (without ESC) and of any number of
    whole title sequences, of either digit and with either terminator, with
    non-empty printable payloads, sent to stdout or stderr with the toggle
    on and accepted whole, appends one record for each sequence, in order,
    each with the first 200 bytes of its payload as title (the log opens
    and the lines fit). *)
Theorem whole_sequences_logged_in_order w fd items st :
  Forall well_formed_item items ->
  resolvable w st ->
  fd = STDOUT_FILENO \/ fd = STDERR_FILENO ->
  sys_getenv w = Some (bytes "1") ->
  sys_write w fd (Some (render items)) (Z.of_nat (List.length (render items)))
  = Z.of_nat (List.length (render items)) ->
  4 <= Z.of_nat (List.length (render items)) < 2 ^ 64 ->
  0 <= sys_open w ->
  Forall (fun t =>
            Z.of_nat (List.length
              (format_entry (sys_timestamp w) (sys_getpid w)
                 (fst (get_current_working_directory w PATH_MAX)) t))
            < LOG_ENTRY_SIZE) (expected_titles items) ->
  fst (write w fd (Some (render items)) (Z.of_nat (List.length (render items))) st)
  = Ret (Z.of_nat (List.length (render items)))
  /\ appended
       (new_events
          (write w fd (Some (render items)) (Z.of_nat (List.length (render items))))
          st)
     = map (fun t => sys_timestamp w ++ [x7c] ++ decimal (sys_getpid w) ++ [x7c]
                     ++ fst (get_current_working_directory w PATH_MAX) ++ [x7c]
                     ++ t ++ [x0a]) (expected_titles items).
Proof.
  intros Hwf R Hfd E W Hn Ho Hfit.
  set (data := render items) in *. set (n := Z.of_nat (List.length data)) in *.
  assert (T : triggers w fd (Some data) n = true).
  { unfold triggers. rewrite W.
    replace (n >? 0) with true by (symmetry; apply Z.gtb_lt; lia).
    destruct Hfd as [-> | ->]; reflexivity. }
  apply is_enabled_iff in E.
  destruct (write_scanned w fd data n st R T E) as [evs [Hw [_ C]]];
    [rewrite W; lia | rewrite W; lia |].
  rewrite W in Hw, C.
  rewrite (trace_write_events _ _ _ _ _ _ _ Hw), Hw.
  split; [reflexivity|].
  rewrite appended_app, appended_resolution_events. cbn [appended List.app].
  rewrite <- appended_calls, C.
  unfold data, n. rewrite scan_titles_rendered by assumption.
  apply appended_titles; try assumption.
  now apply expected_titles_printable.
Qed.

Lemma whole_sequences_logged_in_order_witness :
  render [Title x30 (bytes "one") TermBEL; Plain (bytes "text");
          Title x32 (bytes "two") TermST]
  = OSC0 ++ bytes "one" ++ [x07] ++ bytes "text"
    ++ OSC2 ++ bytes "two" ++ [x1b; x5c]
  /\ appended
       (new_events
          (write (demo_world toggle_on 21) STDERR_FILENO
             (Some (render [Title x30 (bytes "one") TermBEL; Plain (bytes "text");
                            Title x32 (bytes "two") TermST])) 21)
          initial_state)
     = [bytes "2024-01-01 10:00:00|4242|/workspace|one" ++ [x0a];
        bytes "2024-01-01 10:00:00|4242|/workspace|two" ++ [x0a]].
Proof.
  split; [reflexivity|].
  apply (whole_sequences_logged_in_order (demo_world toggle_on 21) STDERR_FILENO
           [Title x30 (bytes "one") TermBEL; Plain (bytes "text");
            Title x32 (bytes "two") TermST] initial_state).
  - apply Forall_cons;
      [split; [left; reflexivity
              | split; [discriminate | apply validate_printable; reflexivity]] |].
    apply Forall_cons;
      [simpl; repeat (constructor; [vm_compute; discriminate|]); constructor |].
    apply Forall_cons;
      [split; [right; reflexivity
              | split; [discriminate | apply validate_printable; reflexivity]] |].
    constructor.
  - reflexivity.
  - right. reflexivity.
  - reflexivity.
  - reflexivity.
  - simpl. lia.
  - simpl. lia.
  - cbn [expected_titles flat_map List.app].
    repeat (constructor; [vm_compute; reflexivity|]). constructor.
Defined.

(** ** Bytes beyond the accepted count *)

Section Prefix.

Variable data : list byte.
Variable n : Z.

Hypothesis n_range : 0 <= n <= Z.of_nat (List.length data).

Lemma get_prefix k : 0 <= k < n -> get (firstn (Z.to_nat n) data) k = get data k.
Proof.
  intros Hk. unfold get. rewrite nth_firstn.
  replace (Z.to_nat k <? Z.to_nat n)%nat with true
    by (symmetry; apply Nat.ltb_lt; lia).
  reflexivity.
Qed.

Lemma is_marker_prefix i : 0 <= i -> i + 3 < n -> is_marker (firstn (Z.to_nat n) data) i = is_marker data i.
Proof.
  intros Hi Hn. unfold is_marker. now rewrite !get_prefix by lia.
Qed.

Lemma terminator_at_prefix k :
  0 <= k < n -> terminator_at (firstn (Z.to_nat n) data) n k = terminator_at data n k.
Proof.
  intros Hk. unfold terminator_at. rewrite (get_prefix k) by lia.
  destruct (k <? n - 1) eqn:E.
  - apply Z.ltb_lt in E. now rewrite (get_prefix (k + 1)) by lia.
  - reflexivity.
Qed.

Lemma first_terminator_prefix fuel : forall k,
  0 <= k -> first_terminator (firstn (Z.to_nat n) data) n fuel k = first_terminator data n fuel k.
Proof.
  induction fuel as [|fuel IH]; intros k Hk; [reflexivity|].
  cbn [first_terminator].
  destruct (k <? n) eqn:E; [|reflexivity].
  apply Z.ltb_lt in E. rewrite terminator_at_prefix by lia.
  cbn [andb]. destruct (negb (terminator_at data n k)); [|reflexivity].
  apply IH. lia.
Qed.

Lemma retained_prefix s e :
  0 <= s <= n -> e <= n -> retained (firstn (Z.to_nat n) data) s e = retained data s e.
Proof.
  intros Hs He. unfold retained.
  rewrite !firstn_skipn_comm, firstn_firstn. f_equal. f_equal.
  unfold TITLE_MAX. lia.
Qed.

Lemma titles_at_prefix i :
  0 <= i -> i + 4 < n -> titles_at (firstn (Z.to_nat n) data) n i = titles_at data n i.
Proof.
  intros Hi Hn. unfold titles_at, candidate_title.
  rewrite is_marker_prefix, first_terminator_prefix by lia.
  set (e := first_terminator data n (Z.to_nat (n - (i + 4))) (i + 4)).
  destruct (e <? n) eqn:E; [|reflexivity].
  apply Z.ltb_lt in E. now rewrite retained_prefix by lia.
Qed.

Lemma scan_titles_prefix : scan_titles (firstn (Z.to_nat n) data) n = scan_titles data n.
Proof.
  unfold scan_titles.
  assert (H : forall l, (forall i, In i l -> 0 <= i /\ i + 4 < n) ->
            flat_map (titles_at (firstn (Z.to_nat n) data) n) l = flat_map (titles_at data n) l).
  { induction l as [|i l IH]; intros Hl; [reflexivity|].
    cbn [flat_map]. rewrite IH by (intros j Hj; apply Hl; now right).
    destruct (Hl i (or_introl eq_refl)). now rewrite titles_at_prefix. }
  apply H. intros i Hi. apply offsets_In in Hi. lia.
Qed.

End Prefix.

(** X12: what a call logs depends on the accepted bytes only.  Two buffers
    that agree on their first [n] bytes, sent to the same descriptor in the
    same world with [n >= 4] bytes accepted of each, append the same
    records, whatever follows in either buffer. *)
Theorem unaccepted_bytes_do_not_matter w fd data1 data2 count1 count2 n st :
  resolvable w st ->
  fd = STDOUT_FILENO \/ fd = STDERR_FILENO ->
  0 < count1 -> 0 < count2 ->
  sys_getenv w = Some (bytes "1") ->
  sys_write w fd (Some data1) count1 = n ->
  sys_write w fd (Some data2) count2 = n ->
  4 <= n < 2 ^ 64 ->
  n <= Z.of_nat (List.length data1) -> n <= Z.of_nat (List.length data2) ->
  firstn (Z.to_nat n) data1 = firstn (Z.to_nat n) data2 ->
  fst (write w fd (Some data1) count1 st) = Ret n
  /\ fst (write w fd (Some data2) count2 st) = Ret n
  /\ appended (new_events (write w fd (Some data1) count1) st)
     = appended (new_events (write w fd (Some data2) count2) st).
Proof.
  intros R Hfd Hc1 Hc2 E W1 W2 Hn H1 H2 Hpre.
  apply is_enabled_iff in E.
  assert (T : forall data count, 0 < count -> sys_write w fd (Some data) count = n ->
            triggers w fd (Some data) count = true).
  { intros data count Hc W. unfold triggers. rewrite W.
    replace (count >? 0) with true by (symmetry; apply Z.gtb_lt; lia).
    replace (n >? 0) with true by (symmetry; apply Z.gtb_lt; lia).
    destruct Hfd as [-> | ->]; reflexivity. }
  destruct (write_scanned w fd data1 count1 st R (T _ _ Hc1 W1) E)
    as [evs1 [Hw1 [_ C1]]]; [rewrite W1; lia | rewrite W1; lia |].
  destruct (write_scanned w fd data2 count2 st R (T _ _ Hc2 W2) E)
    as [evs2 [Hw2 [_ C2]]]; [rewrite W2; lia | rewrite W2; lia |].
  rewrite W1 in Hw1, C1. rewrite W2 in Hw2, C2.
  rewrite (trace_write_events _ _ _ _ _ _ _ Hw1), Hw1.
  rewrite (trace_write_events _ _ _ _ _ _ _ Hw2), Hw2.
  split; [reflexivity|]. split; [reflexivity|].
  rewrite !appended_app. cbn [appended List.app]. f_equal.
  rewrite <- (appended_calls evs1), <- (appended_calls evs2), C1, C2.
  rewrite <- (scan_titles_prefix data1 n) by lia.
  rewrite <- (scan_titles_prefix data2 n) by lia.
  now rewrite Hpre.
Qed.

Lemma unaccepted_bytes_do_not_matter_witness :
  firstn 10 (hello_buffer ++ bytes "tail")
  = firstn 10 (hello_buffer ++ OSC2 ++ bytes "x" ++ [x07])
  /\ appended
       (new_events
          (write (demo_world toggle_on 10) STDOUT_FILENO
             (Some (hello_buffer ++ bytes "tail")) 14) initial_state)
     = appended
         (new_events
            (write (demo_world toggle_on 10) STDOUT_FILENO
               (Some (hello_buffer ++ OSC2 ++ bytes "x" ++ [x07])) 16)
            initial_state).
Proof.
  split; [reflexivity|].
  apply (unaccepted_bytes_do_not_matter (demo_world toggle_on 10) STDOUT_FILENO
           (hello_buffer ++ bytes "tail") (hello_buffer ++ OSC2 ++ bytes "x" ++ [x07])
           14 16 10 initial_state).
  - reflexivity.
  - left. reflexivity.
  - lia.
  - lia.
  - reflexivity.
  - reflexivity.
  - reflexivity.
  - lia.
  - simpl. lia.
  - simpl. lia.
  - reflexivity.
Defined.

(** ** Candidates seen through the shim *)

Lemma triggers_std w fd data count n :
  fd = STDOUT_FILENO \/ fd = STDERR_FILENO -> 0 < count ->
  sys_write w fd (Some data) count = n -> 0 < n ->
  triggers w fd (Some data) count = true.
Proof.
  intros Hfd Hc W Hn. unfold triggers. rewrite W.
  replace (count >? 0) with true by (symmetry; apply Z.gtb_lt; lia).
  replace (n >? 0) with true by (symmetry; apply Z.gtb_lt; lia).
  destruct Hfd as [-> | ->]; reflexivity.
Qed.

Lemma appended_flat_map_In w pid titles t x :
  In t titles -> In x (appended (log_events w pid t)) ->
  In x (appended (flat_map (log_events w pid) titles)).
Proof.
  induction titles as [|t' titles IH]; intros Ht Hx; [contradiction|].
  cbn [flat_map]. rewrite appended_app. apply in_or_app.
  destruct Ht as [-> | Ht]; [left; exact Hx | right; now apply IH].
Qed.

Lemma appended_scan_titles w pid (T : Z -> list (list byte)) l :
  appended (flat_map (log_events w pid) (flat_map T l))
  = flat_map (fun j => appended (flat_map (log_events w pid) (T j))) l.
Proof.
  induction l as [|j l IH]; [reflexivity|].
  cbn [flat_map]. now rewrite flat_map_app, appended_app, IH.
Qed.

(** The records of a triggered, enabled call that accepted [n >= 4] bytes
    inside the buffer: those of the titles of [scan_titles]. *)
Lemma write_appended w fd data count n st :
  resolvable w st ->
  fd = STDOUT_FILENO \/ fd = STDERR_FILENO -> 0 < count ->
  sys_getenv w = Some (bytes "1") ->
  sys_write w fd (Some data) count = n ->
  4 <= n <= Z.of_nat (List.length data) -> n < 2 ^ 64 ->
  fst (write w fd (Some data) count st) = Ret n
  /\ appended (new_events (write w fd (Some data) count) st)
     = appended (flat_map (log_events w (sys_getpid w)) (scan_titles data n)).
Proof.
  intros R Hfd Hc E W Hn Hmax. apply is_enabled_iff in E.
  destruct (write_scanned w fd data count st R
              (triggers_std w fd data count n Hfd Hc W ltac:(lia)) E)
    as [evs [Hw [_ C]]]; [rewrite W; lia | rewrite W; lia |].
  rewrite W in Hw, C.
  rewrite (trace_write_events _ _ _ _ _ _ _ Hw), Hw.
  split; [reflexivity|].
  rewrite appended_app, appended_resolution_events. cbn [appended List.app].
  now rewrite <- appended_calls, C.
Qed.

(** A terminated candidate with more than 200 payload bytes, the first 200
    of them printable, found by the scan of a call: the record with these
    200 bytes as title is among the records the call appends. *)
Lemma long_candidate_record w fd data count n i e st :
  resolvable w st ->
  fd = STDOUT_FILENO \/ fd = STDERR_FILENO -> 0 < count ->
  sys_getenv w = Some (bytes "1") ->
  sys_write w fd (Some data) count = n ->
  n <= Z.of_nat (List.length data) -> n < 2 ^ 64 ->
  0 <= i -> is_marker data i = true ->
  terminated_at data n (i + 4) e ->
  TITLE_MAX < e - (i + 4) ->
  Forall printable (firstn 200 (payload data (i + 4) e)) ->
  0 <= sys_open w ->
  Z.of_nat (List.length
    (format_entry (sys_timestamp w) (sys_getpid w)
       (fst (get_current_working_directory w PATH_MAX))
       (firstn 200 (payload data (i + 4) e)))) < LOG_ENTRY_SIZE ->
  List.length (firstn 200 (payload data (i + 4) e)) = 200%nat
  /\ fst (write w fd (Some data) count st) = Ret n
  /\ In (sys_timestamp w ++ [x7c] ++ decimal (sys_getpid w) ++ [x7c]
         ++ fst (get_current_working_directory w PATH_MAX) ++ [x7c]
         ++ firstn 200 (payload data (i + 4) e) ++ [x0a])
        (appended (new_events (write w fd (Some data) count) st)).
Proof.
  intros R Hfd Hc E W Hle Hmax Hi Hm Ht Hl Hp Ho Hfit.
  pose proof Ht as [Hr _]. unfold TITLE_MAX in Hl.
  assert (Hret : retained data (i + 4) e = firstn 200 (payload data (i + 4) e))
    by apply retained_payload.
  destruct (write_appended w fd data count n st R Hfd Hc E W ltac:(lia) Hmax)
    as [Hf Ha].
  split; [|split; [exact Hf|]].
  - rewrite <- Hret. apply retained_length; unfold TITLE_MAX; lia.
  - rewrite Ha.
    apply (appended_flat_map_In _ _ _ (firstn 200 (payload data (i + 4) e))).
    + unfold scan_titles. apply in_flat_map. exists i. split.
      * apply offsets_In. lia.
      * unfold titles_at. rewrite Hm.
        rewrite (candidate_title_yielded data n i e);
          [| lia | exact Ht | lia | rewrite Hret; exact Hp].
        rewrite Hret. left. reflexivity.
    + rewrite appended_log_events by assumption.
      unfold format_entry. rewrite c_str_printable by assumption.
      left. reflexivity.
Qed.

(** C5: a terminated candidate whose payload is longer than 200 bytes is
    not rejected for its length: when the scan of a call meets it (marker at
    [i], first terminator at [e], more than 200 bytes in between, the first
    200 of them printable), the call appends the record whose title is the
    first 200 payload bytes, a title of exactly 200 bytes.  A buffer that
    is one whole sequence with a printable payload of more than 200 bytes
    (300, say) appends exactly that one record.  (The log opens and the
    line fits.) *)
Theorem long_payload_logged_truncated w fd st :
  resolvable w st ->
  fd = STDOUT_FILENO \/ fd = STDERR_FILENO ->
  sys_getenv w = Some (bytes "1") ->
  0 <= sys_open w ->
  (forall data count n i e,
      0 < count ->
      sys_write w fd (Some data) count = n ->
      n <= Z.of_nat (List.length data) -> n < 2 ^ 64 ->
      0 <= i -> is_marker data i = true ->
      terminated_at data n (i + 4) e ->
      TITLE_MAX < e - (i + 4) ->
      Forall printable (firstn 200 (payload data (i + 4) e)) ->
      Z.of_nat (List.length
        (format_entry (sys_timestamp w) (sys_getpid w)
           (fst (get_current_working_directory w PATH_MAX))
           (firstn 200 (payload data (i + 4) e)))) < LOG_ENTRY_SIZE ->
      List.length (firstn 200 (payload data (i + 4) e)) = 200%nat
      /\ fst (write w fd (Some data) count st) = Ret n
      /\ In (sys_timestamp w ++ [x7c] ++ decimal (sys_getpid w) ++ [x7c]
             ++ fst (get_current_working_directory w PATH_MAX) ++ [x7c]
             ++ firstn 200 (payload data (i + 4) e) ++ [x0a])
            (appended (new_events (write w fd (Some data) count) st)))
  /\ (forall d p t,
      d = x30 \/ d = x32 ->
      Forall printable p -> (200 < List.length p)%nat ->
      sys_write w fd (Some (render [Title d p t]))
        (Z.of_nat (List.length (render [Title d p t])))
      = Z.of_nat (List.length (render [Title d p t])) ->
      Z.of_nat (List.length (render [Title d p t])) < 2 ^ 64 ->
      Z.of_nat (List.length
        (format_entry (sys_timestamp w) (sys_getpid w)
           (fst (get_current_working_directory w PATH_MAX))
           (firstn 200 p))) < LOG_ENTRY_SIZE ->
      List.length (firstn 200 p) = 200%nat
      /\ fst (write w fd (Some (render [Title d p t]))
                (Z.of_nat (List.length (render [Title d p t]))) st)
         = Ret (Z.of_nat (List.length (render [Title d p t])))
      /\ appended
           (new_events
              (write w fd (Some (render [Title d p t]))
                 (Z.of_nat (List.length (render [Title d p t])))) st)
         = [sys_timestamp w ++ [x7c] ++ decimal (sys_getpid w) ++ [x7c]
            ++ fst (get_current_working_directory w PATH_MAX) ++ [x7c]
            ++ firstn 200 p ++ [x0a]]).
Proof.
  intros R Hfd E Ho. split.
  - intros data count n i e Hc W Hle Hmax Hi Hm Ht Hl Hp Hfit.
    now apply (long_candidate_record w fd data count n i e st).
  - intros d p t Hd Hp Hlen W Hmax Hfit.
    assert (Hwf : Forall well_formed_item [Title d p t]).
    { constructor; [|constructor]. split; [exact Hd|]. split; [|exact Hp].
      intros ->. simpl in Hlen. lia. }
    assert (Hn : 4 <= Z.of_nat (List.length (render [Title d p t]))).
    { unfold render. cbn [flat_map render_item]. rewrite !length_app.
      cbn [List.length]. lia. }
    destruct (write_appended w fd (render [Title d p t])
                (Z.of_nat (List.length (render [Title d p t])))
                (Z.of_nat (List.length (render [Title d p t]))) st
                R Hfd ltac:(lia) E W ltac:(lia) Hmax) as [Hf Ha].
    split; [|split; [exact Hf|]].
    + rewrite length_firstn. lia.
    + rewrite Ha, scan_titles_rendered by assumption.
      rewrite appended_titles; [reflexivity | exact Ho | |].
      * now apply expected_titles_printable.
      * cbn [expected_titles flat_map List.app]. constructor; [exact Hfit | constructor].
Qed.

Lemma long_payload_logged_truncated_witness :
  resolvable (demo_world toggle_on 305) initial_state
  /\ long_buffer = render [Title x30 (repeat x61 300) TermBEL]
  /\ In (bytes "2024-01-01 10:00:00|4242|/workspace|" ++ repeat x61 200 ++ [x0a])
        (appended (new_events
                     (write (demo_world toggle_on 305) STDOUT_FILENO
                        (Some long_buffer) 305) initial_state))
  /\ appended (new_events
                 (write (demo_world toggle_on 305) STDOUT_FILENO
                    (Some (render [Title x30 (repeat x61 300) TermBEL])) 305)
                 initial_state)
     = [bytes "2024-01-01 10:00:00|4242|/workspace|" ++ repeat x61 200 ++ [x0a]].
Proof.
  split; [reflexivity|]. split; [reflexivity|].
  pose proof (long_payload_logged_truncated (demo_world toggle_on 305)
                STDOUT_FILENO initial_state) as H.
  destruct H as [H1 H2].
  - reflexivity.
  - left. reflexivity.
  - reflexivity.
  - simpl. lia.
  - split.
    + apply (H1 long_buffer 305 305 0 304).
      * lia.
      * reflexivity.
      * simpl. lia.
      * lia.
      * lia.
      * reflexivity.
      * apply terminated_at_computed; [lia | reflexivity | lia].
      * unfold TITLE_MAX. lia.
      * apply validate_printable. reflexivity.
      * vm_compute. reflexivity.
    + apply (H2 x30 (repeat x61 300) TermBEL).
      * left. reflexivity.
      * apply validate_printable. reflexivity.
      * simpl. lia.
      * reflexivity.
      * simpl. lia.
      * vm_compute. reflexivity.
Defined.

Lemma payload_not_printable data s e k :
  0 <= s -> e <= Z.of_nat (List.length data) -> s <= k < e ->
  ~ (32 <= get data k <= 126) ->
  validate (payload data s e) = false.
Proof.
  intros Hs He Hk Hb.
  destruct (validate (payload data s e)) eqn:V; [|reflexivity].
  exfalso. apply Hb. apply validate_printable in V.
  rewrite Forall_nth in V.
  specialize (V (Z.to_nat (k - s)) x00).
  unfold payload in V. rewrite length_firstn, length_skipn in V.
  specialize (V ltac:(lia)).
  rewrite nth_firstn in V.
  replace (Z.to_nat (k - s) <? Z.to_nat (e - s))%nat with true in V
    by (symmetry; apply Nat.ltb_lt; lia).
  rewrite nth_skipn in V. unfold printable in V. unfold get.
  replace (Z.to_nat k) with (Z.to_nat s + Z.to_nat (k - s))%nat by lia.
  exact V.
Qed.

(** C9: validation stops where the title was cut.  When the scan of a call
    meets a terminated candidate with more than 200 payload bytes whose
    first 200 bytes are printable, the call appends the record with these
    200 bytes as title, although a payload byte past the cut (at offset
    [k]) is not printable and the payload as a whole would not pass the
    validation.  (The log opens and the line fits.) *)
Theorem unretained_bytes_not_validated w fd data count n i e k st :
  resolvable w st ->
  fd = STDOUT_FILENO \/ fd = STDERR_FILENO -> 0 < count ->
  sys_getenv w = Some (bytes "1") ->
  sys_write w fd (Some data) count = n ->
  n <= Z.of_nat (List.length data) -> n < 2 ^ 64 ->
  0 <= i -> is_marker data i = true ->
  terminated_at data n (i + 4) e ->
  TITLE_MAX < e - (i + 4) ->
  Forall printable (firstn 200 (payload data (i + 4) e)) ->
  i + 4 + TITLE_MAX <= k < e ->
  ~ (32 <= get data k <= 126) ->
  0 <= sys_open w ->
  Z.of_nat (List.length
    (format_entry (sys_timestamp w) (sys_getpid w)
       (fst (get_current_working_directory w PATH_MAX))
       (firstn 200 (payload data (i + 4) e)))) < LOG_ENTRY_SIZE ->
  validate (payload data (i + 4) e) = false
  /\ fst (write w fd (Some data) count st) = Ret n
  /\ In (sys_timestamp w ++ [x7c] ++ decimal (sys_getpid w) ++ [x7c]
         ++ fst (get_current_working_directory w PATH_MAX) ++ [x7c]
         ++ firstn 200 (payload data (i + 4) e) ++ [x0a])
        (appended (new_events (write w fd (Some data) count) st)).
Proof.
  intros R Hfd Hc E W Hle Hmax Hi Hm Ht Hl Hp Hk Hb Ho Hfit.
  split.
  - destruct Ht as [Hr _]. unfold TITLE_MAX in Hk.
    apply (payload_not_printable data (i + 4) e k); (assumption || lia).
  - now apply (long_candidate_record w fd data count n i e st).
Qed.

Lemma unretained_bytes_not_validated_witness :
  resolvable (demo_world toggle_on 226) initial_state
  /\ get tail_buffer 204 = 1
  /\ validate (payload tail_buffer 4 225) = false
  /\ fst (write (demo_world toggle_on 226) STDOUT_FILENO (Some tail_buffer) 226
            initial_state) = Ret 226
  /\ In (bytes "2024-01-01 10:00:00|4242|/workspace|" ++ repeat x61 200 ++ [x0a])
        (appended (new_events
                     (write (demo_world toggle_on 226) STDOUT_FILENO
                        (Some tail_buffer) 226) initial_state)).
Proof.
  split; [reflexivity|]. split; [reflexivity|].
  apply (unretained_bytes_not_validated (demo_world toggle_on 226) STDOUT_FILENO
           tail_buffer 226 226 0 225 204 initial_state).
  - reflexivity.
  - left. reflexivity.
  - lia.
  - reflexivity.
  - reflexivity.
  - simpl. lia.
  - lia.
  - lia.
  - reflexivity.
  - apply terminated_at_computed; [lia | reflexivity | lia].
  - unfold TITLE_MAX. lia.
  - apply validate_printable. reflexivity.
  - unfold TITLE_MAX. lia.
  - replace (get tail_buffer 204) with 1 by reflexivity. lia.
  - simpl. lia.
  - vm_compute. reflexivity.
Defined.

(** The same buffer through the shim gives that record and no other. *)
Lemma write_tail_buffer :
  appended (new_events
              (write (demo_world toggle_on 226) STDOUT_FILENO (Some tail_buffer) 226)
              initial_state)
  = [bytes "2024-01-01 10:00:00|4242|/workspace|" ++ repeat x61 200 ++ [x0a]].
Proof. vm_compute. reflexivity. Qed.

(** C7, amended.  The scan does not jump past a terminator: the records a
    call appends are, for each offset 0..n-5 in increasing order, those of
    the candidate that starts at that offset, each candidate judged on its
    own, whether or not an earlier one yielded a title.  When the candidate
    at [i] yielded a title, no leading marker starts inside its marker
    bytes, its retained title (the first at most 200 payload bytes) or its
    terminator, so these offsets add no record.  A leading marker at an
    offset [j] of its payload past the 200-byte cut is examined like any
    other, and adds a record of its own when the bytes between [j + 4] and
    the same terminator are not empty and the first 200 of them are
    printable. *)
Theorem scan_examines_every_offset w fd data count n st :
  resolvable w st ->
  fd = STDOUT_FILENO \/ fd = STDERR_FILENO -> 0 < count ->
  sys_getenv w = Some (bytes "1") ->
  sys_write w fd (Some data) count = n ->
  4 <= n <= Z.of_nat (List.length data) -> n < 2 ^ 64 ->
  (fst (write w fd (Some data) count st) = Ret n
   /\ appended (new_events (write w fd (Some data) count) st)
      = flat_map
          (fun j => appended (flat_map (log_events w (sys_getpid w))
                                (titles_at data n j)))
          (offsets 0 (Z.to_nat (n - 4))))
  /\ (forall i e,
      0 <= i -> is_marker data i = true ->
      terminated_at data n (i + 4) e -> i + 4 < e ->
      Forall printable (retained data (i + 4) e) ->
      In i (offsets 0 (Z.to_nat (n - 4)))
      /\ titles_at data n i = [retained data (i + 4) e]
      /\ (forall j,
          i < j ->
          j < i + 4 + Z.min (e - (i + 4)) TITLE_MAX
          \/ j = e \/ (j = e + 1 /\ get data e = ESC) ->
          titles_at data n j = [])
      /\ (forall j,
          i + 4 + TITLE_MAX <= j -> j + 4 < e ->
          is_marker data j = true ->
          Forall printable (retained data (j + 4) e) ->
          In j (offsets 0 (Z.to_nat (n - 4)))
          /\ titles_at data n j = [retained data (j + 4) e])).
Proof.
  intros R Hfd Hc E W Hn Hmax. split.
  - destruct (write_appended w fd data count n st R Hfd Hc E W Hn Hmax)
      as [Hf Ha].
    split; [exact Hf|]. rewrite Ha. unfold scan_titles.
    apply appended_scan_titles.
  - intros i e Hi Hm Ht Hne Hp. pose proof Ht as [Hr [Hte Hbefore]].
    split; [apply offsets_In; lia|]. split; [|split].
    + unfold titles_at. rewrite Hm.
      now rewrite (candidate_title_yielded data n i e).
    + intros j Hj Hreg. apply titles_at_unmarked.
      apply (no_marker_in_yielded data n i e j); (assumption || lia).
    + intros j Hj Hje Hmj Hpj. unfold TITLE_MAX in Hj.
      split; [apply offsets_In; lia|].
      unfold titles_at. rewrite Hmj.
      rewrite (candidate_title_yielded data n j e); [reflexivity | lia | | lia | exact Hpj].
      split; [lia|]. split; [exact Hte|].
      intros k Hk. apply Hbefore. lia.
Qed.

Lemma scan_examines_every_offset_witness :
  resolvable (demo_world toggle_on 210) initial_state
  /\ terminated_at nested_buffer 210 4 209
  /\ titles_at nested_buffer 210 0 = [retained nested_buffer 4 209]
  /\ titles_at nested_buffer 210 3 = []
  /\ titles_at nested_buffer 210 204 = [retained nested_buffer 208 209]
  /\ retained nested_buffer 208 209 = bytes "b".
Proof.
  split; [reflexivity|].
  assert (Ht : terminated_at nested_buffer 210 4 209).
  { apply terminated_at_computed; [lia | reflexivity | lia]. }
  split; [exact Ht|].
  pose proof (scan_examines_every_offset (demo_world toggle_on 210) STDOUT_FILENO
                nested_buffer 210 210 initial_state) as H.
  destruct H as [_ H].
  - reflexivity.
  - left. reflexivity.
  - lia.
  - reflexivity.
  - reflexivity.
  - simpl. lia.
  - lia.
  - destruct (H 0 209) as [_ [H1 [H2 H3]]].
    + lia.
    + reflexivity.
    + exact Ht.
    + lia.
    + apply validate_printable. reflexivity.
    + split; [exact H1|]. split.
      * apply (H2 3); [lia | left; unfold TITLE_MAX; lia].
      * split; [|reflexivity].
        apply (H3 204).
        -- unfold TITLE_MAX. lia.
        -- lia.
        -- reflexivity.
        -- apply validate_printable. reflexivity.
Defined.

(** ** A sequence cut in two *)

Lemma is_marker_plain s j :
  (j < List.length s)%nat ->
  uchar (nth j s x00) <> ESC
  \/ ((S j < List.length s)%nat /\ uchar (nth (S j) s x00) <> RBRACKET) ->
  is_marker s (Z.of_nat j) = false.
Proof.
  intros Hj H.
  pose proof (is_marker_segment [] s [] j Hj H) as M.
  cbn [List.app List.length] in M. rewrite app_nil_r in M. exact M.
Qed.

Lemma resolvable_after_write w w' fd buf count st :
  resolvable w st -> resolvable w' (snd (write w fd buf count st)).
Proof.
  intros R. destruct (write_run w fd buf count) as [o [evs [_ H]]].
  rewrite (H st R). reflexivity.
Qed.

Section Split.

Variable d : byte.
Variable p : list byte.
Variable t : terminator.
Variable k : nat.

Hypothesis digit_ok : d = x30 \/ d = x32.
Hypothesis payload_printable : Forall printable p.
Hypothesis head_size : (4 <= k)%nat.
Hypothesis tail_size : (k + 4 <= List.length (render_item (Title d p t)))%nat.

Lemma sequence_length :
  List.length (render_item (Title d p t))
  = (4 + List.length p + List.length (render_terminator t))%nat.
Proof. cbn [render_item]. rewrite !length_app. cbn [List.length]. lia. Qed.

Lemma terminator_length : (1 <= List.length (render_terminator t) <= 2)%nat.
Proof. destruct t; simpl; lia. Qed.

(** The first [k] bytes hold the marker and the beginning of the payload,
    and no terminator. *)
Lemma scan_titles_head :
  scan_titles (render_item (Title d p t)) (Z.of_nat k) = [].
Proof.
  pose proof sequence_length as Hlen. pose proof terminator_length as Htl.
  set (s := render_item (Title d p t)) in *.
  unfold scan_titles. apply flat_map_nil. intros j Hj.
  apply offsets_In in Hj.
  destruct (Z.eq_dec j 0) as [-> | Hj0].
  - unfold titles_at.
    destruct (is_marker s 0); [|reflexivity].
    rewrite candidate_title_unterminated; [reflexivity | lia | lia |].
    intros m Hm. unfold terminator_at.
    assert (G : get s m = uchar (nth (Z.to_nat m - 4) p x00)).
    { unfold get, s. cbn [render_item].
      replace (Z.to_nat m) with (4 + (Z.to_nat m - 4))%nat at 1 by lia.
      cbn [List.app Nat.add nth]. rewrite app_nth1 by lia. reflexivity. }
    assert (Hpr : printable (nth (Z.to_nat m - 4) p x00)).
    { rewrite Forall_nth in payload_printable. apply payload_printable. lia. }
    unfold printable in Hpr. rewrite G.
    replace (uchar (nth (Z.to_nat m - 4) p x00) =? BEL) with false
      by (symmetry; apply Z.eqb_neq; unfold BEL; lia).
    replace (uchar (nth (Z.to_nat m - 4) p x00) =? ESC) with false
      by (symmetry; apply Z.eqb_neq; unfold ESC; lia).
    now rewrite andb_false_r.
  - apply titles_at_unmarked.
    replace j with (Z.of_nat (Z.to_nat j)) by lia.
    apply is_marker_plain; [lia|].
    apply title_segment_no_marker; try assumption. fold s. lia.
Qed.

(** The remaining bytes hold the end of the payload and the terminator, and
    no marker. *)
Lemma scan_titles_tail :
  scan_titles (skipn k (render_item (Title d p t)))
    (Z.of_nat (List.length (render_item (Title d p t)) - k)) = [].
Proof.
  set (s := render_item (Title d p t)) in *.
  unfold scan_titles. apply flat_map_nil. intros j Hj.
  apply offsets_In in Hj. apply titles_at_unmarked.
  replace j with (Z.of_nat (Z.to_nat j)) by lia.
  apply is_marker_plain; [rewrite length_skipn; lia|].
  rewrite length_skipn, !nth_skipn.
  destruct (title_segment_no_marker d p t (k + Z.to_nat j) digit_ok
              payload_printable) as [H | [H1 H2]].
  - fold s. lia.
  - left. exact H.
  - right. fold s in H1. split; [lia|].
    replace (k + S (Z.to_nat j))%nat with (S (k + Z.to_nat j)) by lia.
    exact H2.
Qed.

End Split.

(** X5: a title sequence cut in two and sent in two calls is not put
    together again.  If the first call carries the first [k] bytes of a
    whole sequence (marker, printable payload, terminator) and a later call
    the rest, each part being at least four bytes and accepted whole, both
    calls return and neither appends a record. *)
Theorem split_sequence_not_reassembled w1 w2 fd d p t k st :
  d = x30 \/ d = x32 -> Forall printable p ->
  (4 <= k)%nat -> (k + 4 <= List.length (render_item (Title d p t)))%nat ->
  resolvable w1 st ->
  fd = STDOUT_FILENO \/ fd = STDERR_FILENO ->
  sys_getenv w1 = Some (bytes "1") -> sys_getenv w2 = Some (bytes "1") ->
  sys_write w1 fd (Some (firstn k (render_item (Title d p t)))) (Z.of_nat k)
  = Z.of_nat k ->
  sys_write w2 fd (Some (skipn k (render_item (Title d p t))))
    (Z.of_nat (List.length (render_item (Title d p t)) - k))
  = Z.of_nat (List.length (render_item (Title d p t)) - k) ->
  Z.of_nat (List.length (render_item (Title d p t))) < 2 ^ 64 ->
  fst (write w1 fd (Some (firstn k (render_item (Title d p t)))) (Z.of_nat k) st)
  = Ret (Z.of_nat k)
  /\ appended
       (new_events
          (write w1 fd (Some (firstn k (render_item (Title d p t)))) (Z.of_nat k))
          st) = []
  /\ fst (write w2 fd (Some (skipn k (render_item (Title d p t))))
            (Z.of_nat (List.length (render_item (Title d p t)) - k))
            (snd (write w1 fd (Some (firstn k (render_item (Title d p t))))
                    (Z.of_nat k) st)))
     = Ret (Z.of_nat (List.length (render_item (Title d p t)) - k))
  /\ appended
       (new_events
          (write w2 fd (Some (skipn k (render_item (Title d p t))))
             (Z.of_nat (List.length (render_item (Title d p t)) - k)))
          (snd (write w1 fd (Some (firstn k (render_item (Title d p t))))
                  (Z.of_nat k) st))) = [].
Proof.
  intros Hd Hp Hk Hk' R Hfd E1 E2 W1 W2 Hmax.
  set (s := render_item (Title d p t)) in *.
  assert (L1 : List.length (firstn k s) = k) by (rewrite length_firstn; lia).
  assert (L2 : List.length (skipn k s) = (List.length s - k)%nat)
    by apply length_skipn.
  destruct (write_appended w1 fd (firstn k s) (Z.of_nat k) (Z.of_nat k) st
              R Hfd ltac:(lia) E1 W1 ltac:(lia) ltac:(lia)) as [F1 A1].
  pose proof (resolvable_after_write w1 w2 fd (Some (firstn k s)) (Z.of_nat k) st R)
    as R2.
  destruct (write_appended w2 fd (skipn k s) (Z.of_nat (List.length s - k))
              (Z.of_nat (List.length s - k)) _
              R2 Hfd ltac:(lia) E2 W2 ltac:(lia) ltac:(lia)) as [F2 A2].
  split; [exact F1|]. split; [|split; [exact F2|]].
  - rewrite A1.
    replace (firstn k s) with (firstn (Z.to_nat (Z.of_nat k)) s)
      by (now rewrite Nat2Z.id).
    rewrite scan_titles_prefix by lia.
    unfold s. now rewrite scan_titles_head.
  - rewrite A2. unfold s. now rewrite scan_titles_tail.
Qed.

Lemma split_sequence_not_reassembled_witness :
  render_item (Title x30 (bytes "hello") TermBEL) = hello_buffer
  /\ firstn 5 hello_buffer = OSC0 ++ bytes "h"
  /\ skipn 5 hello_buffer = bytes "ello" ++ [x07]
  /\ appended
       (new_events
          (write (demo_world toggle_on 5) STDOUT_FILENO
             (Some (firstn 5 (render_item (Title x30 (bytes "hello") TermBEL)))) 5)
          initial_state) = []
  /\ appended
       (new_events
          (write (demo_world toggle_on 5) STDOUT_FILENO
             (Some (skipn 5 (render_item (Title x30 (bytes "hello") TermBEL)))) 5)
          (snd (write (demo_world toggle_on 5) STDOUT_FILENO
                  (Some (firstn 5 (render_item (Title x30 (bytes "hello") TermBEL))))
                  5 initial_state))) = [].
Proof.
  split; [reflexivity|]. split; [reflexivity|]. split; [reflexivity|].
  pose proof (split_sequence_not_reassembled
                (demo_world toggle_on 5) (demo_world toggle_on 5) STDOUT_FILENO
                x30 (bytes "hello") TermBEL 5 initial_state) as H.
  destruct H as [_ [H1 [_ H2]]].
  - left. reflexivity.
  - apply validate_printable. reflexivity.
  - lia.
  - simpl. lia.
  - reflexivity.
  - left. reflexivity.
  - reflexivity.
  - reflexivity.
  - reflexivity.
  - reflexivity.
  - simpl. lia.
  - split; [exact H1 | exact H2].
Defined.

End TitleInterceptor.
